(** * GitHub repository analyzer: dashboard ([app.py]) and command-line tool ([cli.py])

    A shallow embedding of the two source files.  Both are glue code around
    three things that live outside them: the platform ("remote"), reached
    through the manager object [GithubRepoManager]; the local machine
    (the [token.env] file, the process environment, files written on
    request); and what the user sees (printed lines, rendered page elements).
    These are gathered in one [World] record that every operation threads,
    with Python exceptions as the second kind of result.

    Conventions of the embedding:
    - the manager's class is not among the source files; its operations are
      modelled from the specification and marked so;
    - the platform may fail any call: the world carries a schedule of
      answers, consumed one per call, and a log of the calls made;
    - library calls keep their arguments and leave their rendering to the
      library: a written CSV file is [Csv df], a chart is its title and its
      table, [strftime] is a parameter;
    - a command line is taken as [argparse] has split it (positional words,
      option values), so that [parse_args] is the validation the declared
      arguments ask for;
    - long static texts of the dashboard are cut to their first sentence. *)

From Stdlib Require Import ZArith String List Lia.
From stdpp Require Import base option list strings gmap sorting pretty.

Local Open Scope string_scope.

(** ** Data model *)

(** The authenticated account, as [repo_manager.user] exposes it
    ([login], [name], [avatar_url]); the full name may be unset. *)
Module User.
Record t := mk {
  login : string;
  name : option string;
  avatar_url : string
}.
End User.

(** A repository as the code reads it: [repo.name], [repo.description],
    [repo.permissions.admin], [repo.updated_at], [repo.html_url], and the
    columns the data frame is charted by.  Timestamps are seconds on a
    linear clock, which is all the code uses of them (ordering, display). *)
Module Repo.
Record t := mk {
  name : string;
  owner : string;
  description : option string;
  private : bool;
  fork : bool;
  archived : bool;
  stargazers_count : nat;
  forks_count : nat;
  language : option string;
  created_at : Z;
  updated_at : Z;
  admin : bool;
  html_url : string
}.
End Repo.

(** A commit: [commit.commit.message], [commit.commit.author.name],
    [commit.commit.author.date], [commit.html_url]. *)
Module Commit.
Record t := mk {
  message : string;
  author_name : string;
  author_date : Z;
  html_url : string
}.
End Commit.

#[global] Instance user_eq_dec : EqDecision User.t.
Proof. solve_decision. Defined.
#[global] Instance repo_eq_dec : EqDecision Repo.t.
Proof. solve_decision. Defined.
#[global] Instance commit_eq_dec : EqDecision Commit.t.
Proof. solve_decision. Defined.

(** ** The remote platform *)

(** What the platform holds for the authenticated account. *)
Record Remote := mkRemote {
  r_user : User.t;
  r_repos : list Repo.t;
  r_starred : list Repo.t;
  r_commits : list (string * list Commit.t)
}.

#[global] Instance remote_eq_dec : EqDecision Remote.
Proof. solve_decision. Defined.

(** One call of the platform's REST interface. *)
Inductive Request :=
| GetUser
| ListRepos
| ListStarred
| ListCommits (repo : string)
| CreateRepo (name : string) (description : option string) (private auto_init : bool)
    (gitignore_template license_template : option string)
| DeleteRepo (name : string).

#[global] Instance request_eq_dec : EqDecision Request.
Proof. solve_decision. Defined.

(** Python exceptions the two programs can meet.  [GithubException] is the
    client library's API error (HTTP status and message); [SystemExit] is
    what [argparse] raises after printing its usage message. *)
Inductive exn :=
| GithubException (status : nat) (data : string)
| KeyError (key : string)
| ValueError (message : string)
| AttributeError (message : string)
| SystemExit (code : nat).

#[global] Instance exn_eq_dec : EqDecision exn.
Proof. solve_decision. Defined.

(** [str(e)] *)
Definition str (e : exn) : string :=
  match e with
  | GithubException status data => pretty status +:+ " " +:+ data
  | KeyError key => "'" +:+ key +:+ "'"
  | ValueError message => message
  | AttributeError message => message
  | SystemExit code => pretty code
  end.

(** ** Tables, files and what the user sees *)

(** A row of the commit table built by [get_all_commits] and by the
    Activity page: keys ['repo'], ['message'], ['date'], ['author'], ['url']. *)
Record CommitRow := mkCommitRow {
  c_repo : string;
  c_message : string;
  c_date : Z;
  c_author : string;
  c_url : string
}.

#[global] Instance commit_row_eq_dec : EqDecision CommitRow.
Proof. solve_decision. Defined.

(** A row of the repository table ([get_repos_dataframe],
    [get_starred_repos]); the source reads the columns ['name'],
    ['language'], ['stars'], ['forks'], ['created_at'] and ['is_owner']. *)
Record RepoRow := mkRepoRow {
  col_name : string;
  col_owner : string;
  col_is_owner : bool;
  col_private : bool;
  col_fork : bool;
  col_archived : bool;
  col_stars : nat;
  col_forks : nat;
  col_language : option string;
  col_created_at : Z;
  col_updated_at : Z
}.

#[global] Instance repo_row_eq_dec : EqDecision RepoRow.
Proof. solve_decision. Defined.

(** A pandas data frame: rows carried with their index label, which a
    boolean selection [df[mask]] keeps. *)
Inductive DataFrame :=
| RepoFrame (rows : list (nat * RepoRow))
| CommitFrame (rows : list (nat * CommitRow))
| ActivityFrame (rows : list (nat * (string * Z))).

#[global] Instance data_frame_eq_dec : EqDecision DataFrame.
Proof. solve_decision. Defined.

(** [pd.DataFrame(records)]: a fresh frame gets the index 0, 1, 2, ... *)
Definition range_index {A} (rows : list A) : list (nat * A) :=
  combine (seq 0 (length rows)) rows.

Definition len (df : DataFrame) : nat :=
  match df with
  | RepoFrame rows => length rows
  | CommitFrame rows => length rows
  | ActivityFrame rows => length rows
  end.

(** A plotly figure, kept as its title and the frame it draws. *)
Record Figure := mkFigure {
  fig_title : string;
  fig_data : DataFrame
}.

#[global] Instance figure_eq_dec : EqDecision Figure.
Proof. solve_decision. Defined.

(** What a written file holds: the serialisation is the library's
    ([to_csv], [to_excel], [write_image]), so a file is named by the call
    that produced it and the value it was given. *)
Inductive FileData :=
| Csv (df : DataFrame)
| Xlsx (df : DataFrame)
| Image (fig : Figure).

#[global] Instance file_data_eq_dec : EqDecision FileData.
Proof. solve_decision. Defined.

(** What reaches the terminal's error stream. *)
Inductive ErrEvent :=
| Usage (message : string)
| Traceback (e : exn).

(** A rendered element of the dashboard page.  [in_sidebar] and [in_column]
    place an element; [st_styled] is a table shown through
    [format_dataframe]; [st_exception] is the box streamlit shows for an
    exception the script did not catch. *)
Inductive Element :=
| st_header (s : string)
| st_subheader (s : string)
| st_write (s : string)
| st_markdown (s : string)
| st_error (s : string)
| st_info (s : string)
| st_warning (s : string)
| st_success (s : string)
| st_image (url : string)
| st_dataframe (df : DataFrame)
| st_styled (df : DataFrame) (format_owned : bool)
| st_plotly_chart (fig : Figure)
| st_download_button (label : string) (data : FileData) (file_name mime : string)
| st_exception (e : exn)
| in_sidebar (e : Element)
| in_column (i : nat) (e : Element).

#[global] Instance element_eq_dec : EqDecision Element.
Proof. solve_decision. Defined.

(** ** The world and the monad of programs over it *)

Record World := mkWorld {
  remote : Remote;
  (** what the platform answers to the coming calls: [Some (status, msg)]
      makes the call fail with that API error, [None] lets it through *)
  faults : list (option (nat * string));
  (** every call made to the platform so far, oldest first, each with the
      API error it was answered with, if any *)
  requests : list (Request * option exn);
  (** the key/value pairs of [token.env] beside the source file, if it exists *)
  token_env : option (gmap string string);
  (** [os.environ] *)
  environ : gmap string string;
  (** files written so far, oldest first *)
  written : list (string * FileData);
  stdout : list string;
  stderr : list ErrEvent;
  page : list Element;
  (** [datetime.now()] *)
  clock : Z
}.

Inductive res (A : Type) :=
| Ret (a : A)
| Raise (e : exn).
Arguments Ret {A} a.
Arguments Raise {A} e.

Definition M (A : Type) : Type := World -> res A * World.

Definition ret {A} (a : A) : M A := fun w => (Ret a, w).

Definition raise {A} (e : exn) : M A := fun w => (Raise e, w).

Definition bind {A B} (c : M A) (k : A -> M B) : M B :=
  fun w =>
    match c w with
    | (Ret a, w') => k a w'
    | (Raise e, w') => (Raise e, w')
    end.

Declare Scope prog_scope.
Delimit Scope prog_scope with prog.
Notation "x <- c ;; k" := (bind c (fun x => k))
  (at level 100, c at next level, right associativity) : prog_scope.
Notation "c ;; k" := (bind c (fun _ => k))
  (at level 100, right associativity) : prog_scope.
Local Open Scope prog_scope.

(** [try: c  except GithubException as e: h e] *)
Definition try_except_github {A} (c : M A) (h : exn -> M A) : M A :=
  fun w =>
    match c w with
    | (Raise (GithubException status data), w') => h (GithubException status data) w'
    | r => r
    end.

(** [try: c  except Exception as e: h e]; [SystemExit] is not an [Exception]. *)
Definition try_except_exception {A} (c : M A) (h : exn -> M A) : M A :=
  fun w =>
    match c w with
    | (Raise (SystemExit code), w') => (Raise (SystemExit code), w')
    | (Raise e, w') => h e w'
    | r => r
    end.

(** [for x in xs: body x] *)
Fixpoint for_each {A} (xs : list A) (body : A -> M unit) : M unit :=
  match xs with
  | [] => ret tt
  | x :: rest => body x ;; for_each rest body
  end.

(** World updates. *)
Definition set_remote (r : Remote) (w : World) : World :=
  mkWorld r (faults w) (requests w) (token_env w) (environ w) (written w)
    (stdout w) (stderr w) (page w) (clock w).

Definition set_faults (f : list (option (nat * string))) (w : World) : World :=
  mkWorld (remote w) f (requests w) (token_env w) (environ w) (written w)
    (stdout w) (stderr w) (page w) (clock w).

Definition set_requests (q : list (Request * option exn)) (w : World) : World :=
  mkWorld (remote w) (faults w) q (token_env w) (environ w) (written w)
    (stdout w) (stderr w) (page w) (clock w).

Definition set_environ (e : gmap string string) (w : World) : World :=
  mkWorld (remote w) (faults w) (requests w) (token_env w) e (written w)
    (stdout w) (stderr w) (page w) (clock w).

Definition set_written (f : list (string * FileData)) (w : World) : World :=
  mkWorld (remote w) (faults w) (requests w) (token_env w) (environ w) f
    (stdout w) (stderr w) (page w) (clock w).

Definition set_stdout (o : list string) (w : World) : World :=
  mkWorld (remote w) (faults w) (requests w) (token_env w) (environ w) (written w)
    o (stderr w) (page w) (clock w).

Definition set_stderr (o : list ErrEvent) (w : World) : World :=
  mkWorld (remote w) (faults w) (requests w) (token_env w) (environ w) (written w)
    (stdout w) o (page w) (clock w).

Definition set_page (p : list Element) (w : World) : World :=
  mkWorld (remote w) (faults w) (requests w) (token_env w) (environ w) (written w)
    (stdout w) (stderr w) p (clock w).

(** [print(s)] *)
Definition print (s : string) : M unit :=
  fun w => (Ret tt, set_stdout (stdout w ++ [s]) w).

(** A streamlit display call appends one element to the page. *)
Definition st (e : Element) : M unit :=
  fun w => (Ret tt, set_page (page w ++ [e]) w).

(** Writing [data] to the file [path]. *)
Definition write_file (path : string) (data : FileData) : M unit :=
  fun w => (Ret tt, set_written (written w ++ [(path, data)]) w).

(** ** The platform's answers *)

Inductive Response :=
| RUser (u : User.t)
| RRepos (l : list Repo.t)
| RCommits (l : list Commit.t)
| RRepo (r : Repo.t)
| RDone.

Definition full_name (r : Repo.t) : string :=
  Repo.owner r +:+ "/" +:+ Repo.name r.

(** Is [r] the account's own repository called [name]? *)
Definition own_named (login name : string) (r : Repo.t) : bool :=
  bool_decide (Repo.owner r = login) && bool_decide (Repo.name r = name).

(** Modelled from the spec: the platform itself, which the repository only
    reaches through its client.  Reads answer from the stored state and
    leave it alone; creating adds a repository of the account unless the
    name is taken; deleting removes the account's repository of that name
    or answers "not found". *)
Definition serve (now : Z) (q : Request) (r : Remote) : res Response * Remote :=
  match q with
  | GetUser => (Ret (RUser (r_user r)), r)
  | ListRepos => (Ret (RRepos (r_repos r)), r)
  | ListStarred => (Ret (RRepos (r_starred r)), r)
  | ListCommits repo =>
      (Ret (RCommits (default [] (snd <$> List.find (fun kv => bool_decide (fst kv = repo)) (r_commits r)))), r)
  | CreateRepo name description private auto_init gitignore license =>
      let login := User.login (r_user r) in
      if existsb (own_named login name) (r_repos r)
      then (Raise (GithubException 422 "name already exists on this account"), r)
      else
        let new := Repo.mk name login description private false false 0 0 None now now true
                     ("https://github.com/" +:+ login +:+ "/" +:+ name) in
        (Ret (RRepo new), mkRemote (r_user r) (r_repos r ++ [new]) (r_starred r) (r_commits r))
  | DeleteRepo name =>
      let login := User.login (r_user r) in
      if existsb (own_named login name) (r_repos r)
      then (Ret RDone,
            mkRemote (r_user r) (List.filter (fun x => negb (own_named login name x)) (r_repos r))
              (r_starred r) (r_commits r))
      else (Raise (GithubException 404 "Not Found"), r)
  end.

(** The API error of an answer, if it is one. *)
Definition failure {A} (a : res A) : option exn :=
  match a with
  | Ret _ => None
  | Raise e => Some e
  end.

(** The world after the platform answered [q] with [outcome], leaving
    itself in state [r']: one entry of the fault schedule is used up and
    the call is logged. *)
Definition answered (q : Request) (outcome : option exn) (r' : Remote) (w : World) : World :=
  set_remote r' (set_faults (tl (faults w)) (set_requests (requests w ++ [(q, outcome)]) w)).

(** One remote call: it fails with the API error the fault schedule holds
    for it, or is served. *)
Definition call (q : Request) : M Response :=
  fun w =>
    let '(a, r') :=
      match faults w with
      | Some (status, data) :: _ => (Raise (GithubException status data), remote w)
      | _ => serve (clock w) q (remote w)
      end in
    (a, answered q (failure a) r' w).

(** A call whose answer is a list of repositories, a list of commits, a
    repository, the account. *)
Definition call_repos (q : Request) : M (list Repo.t) :=
  a <- call q ;; ret (match a with RRepos l => l | _ => [] end).

Definition call_commits (q : Request) : M (list Commit.t) :=
  a <- call q ;; ret (match a with RCommits l => l | _ => [] end).

Definition call_repo (q : Request) : M Repo.t :=
  a <- call q ;;
  ret (match a with RRepo r => r | _ => Repo.mk "" "" None false false false 0 0 None 0 0 false "" end).

Definition call_user (q : Request) : M User.t :=
  a <- call q ;; ret (match a with RUser u => u | _ => User.mk "" None "" end).

(** ** The manager *)

(** Modelled from the spec: the class [GithubRepoManager], imported from
    [github_repo_manager], which is not among the source files.  Its
    operations follow section 4.1 of the specification, each one direct
    remote call whose API error, if any, is raised to the caller.  The
    manager keeps nothing but the authenticated handle: the token and the
    account. *)
Record Manager := mkManager {
  token : string;
  user : User.t
}.

(** Modelled from the spec: the constructor of the missing class
    [GithubRepoManager]; it authenticates and keeps the account ("the
    process-wide authenticated client handle"). *)
Definition GithubRepoManager (token : string) : M Manager :=
  u <- call_user GetUser ;; ret (mkManager token u).

(** Modelled from the spec: the missing [all_repos], "list all accessible
    repositories". *)
Definition all_repos (repo_manager : Manager) : M (list Repo.t) :=
  call_repos ListRepos.

Definition is_owner (login : string) (r : Repo.t) : bool :=
  bool_decide (Repo.owner r = login).

(** A Python [dict] with string keys, in insertion order. *)
Definition dict (V : Type) : Type := list (string * V).

(** Modelled from the spec: the summary the missing [get_repo_stats]
    computes, "counts derived by filtering the repository record set
    (total, owned, public, private, forked, archived)", under the keys the
    dashboard reads. *)
Definition repo_stats (login : string) (repos : list Repo.t) : dict nat :=
  [ ("Total Repositories", length repos);
    ("Owned by " +:+ login, length (List.filter (is_owner login) repos));
    ("Public", length (List.filter (fun r => negb (Repo.private r)) repos));
    ("Private", length (List.filter Repo.private repos));
    ("Forked", length (List.filter Repo.fork repos));
    ("Archived", length (List.filter Repo.archived repos)) ].

(** Modelled from the spec: the missing [get_repo_stats], "compute summary
    counts", over the repositories one remote call lists. *)
Definition get_repo_stats (repo_manager : Manager) : M (dict nat) :=
  repos <- all_repos repo_manager ;;
  ret (repo_stats (User.login (user repo_manager)) repos).

(** [a] was updated no earlier than [b]. *)
Definition updated_after (a b : Repo.t) : Prop :=
  (Repo.updated_at b <= Repo.updated_at a)%Z.

#[global] Instance updated_after_dec : RelDecision updated_after.
Proof. intros a b. unfold updated_after. apply _. Defined.

(** Modelled from the spec: the missing [get_recent_repos], "fetch recent
    repositories ordered by update time": the [n] most recently updated of
    the listed repositories, newest first. *)
Definition get_recent_repos (repo_manager : Manager) (n : nat) : M (list Repo.t) :=
  repos <- all_repos repo_manager ;;
  ret (take n (merge_sort updated_after repos)).

(** Modelled from the spec: the missing [get_repo_commits], "fetch commits
    for a repository". *)
Definition get_repo_commits (repo_manager : Manager) (repo : Repo.t) : M (list Commit.t) :=
  call_commits (ListCommits (full_name repo)).

Definition repo_row (login : string) (r : Repo.t) : RepoRow :=
  mkRepoRow (Repo.name r) (Repo.owner r) (is_owner login r) (Repo.private r)
    (Repo.fork r) (Repo.archived r) (Repo.stargazers_count r) (Repo.forks_count r)
    (Repo.language r) (Repo.created_at r) (Repo.updated_at r).

(** Modelled from the spec: the missing [get_repos_dataframe], the manager
    "shapes results into tabular form". *)
Definition get_repos_dataframe (repo_manager : Manager) : M DataFrame :=
  repos <- all_repos repo_manager ;;
  ret (RepoFrame (range_index (map (repo_row (User.login (user repo_manager))) repos))).

(** Modelled from the spec: the missing [get_starred_repos], "fetch starred
    repositories". *)
Definition get_starred_repos (repo_manager : Manager) : M DataFrame :=
  repos <- call_repos ListStarred ;;
  ret (RepoFrame (range_index (map (repo_row (User.login (user repo_manager))) repos))).

(** Modelled from the spec: the missing [create_repo], "create a repository
    (name, description, visibility, init flag, optional template fields)". *)
Definition create_repo (repo_manager : Manager) (name : string)
    (description : option string) (private auto_init : bool)
    (gitignore_template license_template : option string) : M Repo.t :=
  call_repo (CreateRepo name description private auto_init gitignore_template license_template).

(** Modelled from the spec: the missing [delete_repo], "delete a repository
    by name". *)
Definition delete_repo (repo_manager : Manager) (name : string) : M unit :=
  call (DeleteRepo name) ;; ret tt.

(** [d[key]] *)
Fixpoint getitem {V} (d : dict V) (key : string) : M V :=
  match d with
  | [] => raise (KeyError key)
  | (k, v) :: rest => if bool_decide (k = key) then ret v else getitem rest key
  end.

(** ** Python values used by both programs *)

(** Truth value of an optional string: [None] and [''] are falsy. *)
Definition truthy (s : option string) : bool :=
  match s with
  | Some s => negb (String.eqb s "")
  | None => false
  end.

(** How an f-string shows an optional string. *)
Definition fmt (s : option string) : string := default "None" s.

(** The string behind a truthy optional string. *)
Definition the (s : option string) : string := default "" s.

(** [load_dotenv(env_path)] with its defaults: every variable of the file
    is put into the process environment unless the environment already
    has one of that name. *)
Definition load_dotenv (file : gmap string string) : M unit :=
  fun w => (Ret tt, set_environ (environ w ∪ file) w).

(** [os.getenv(key)] *)
Definition getenv (key : string) : M (option string) :=
  fun w => (Ret (environ w !! key), w).

(** ** [cli.py] *)

(** The command line as [argparse] sees it once split into the positional
    words, the value given to each declared option ([None] when the option
    is absent), and the words it recognises as nothing declared.  How the
    words are matched to options (abbreviations, [--opt=value]) is
    [argparse]'s business; command lines asking for [--help] are not
    described. *)
Record Invocation := mkInvocation {
  positionals : list string;
  given_name : option string;
  given_description : option string;
  given_private : bool;
  given_format : option string;
  given_output : option string;
  given_type : option string;
  unrecognized : list string
}.

(** The namespace [parser.parse_args()] returns. *)
Module Namespace.
Record t := mk {
  action : string;
  name : option string;
  description : option string;
  private : bool;
  format : option string;
  output : option string;
  type : option string
}.
End Namespace.

Module cli.

(** [export_data], lines 11-17 *)
Definition export_data (repo_manager : Manager) (format output : string) : M unit :=
  df <- get_repos_dataframe repo_manager ;;
  (if String.eqb format "csv" then write_file output (Csv df)
   else if String.eqb format "xlsx" then write_file output (Xlsx df)
   else ret tt) ;;
  print ("Data exported to " +:+ output).

(** [export_stars], lines 19-25 *)
Definition export_stars (repo_manager : Manager) (format output : string) : M unit :=
  starred_df <- get_starred_repos repo_manager ;;
  (if String.eqb format "csv" then write_file output (Csv starred_df)
   else if String.eqb format "xlsx" then write_file output (Xlsx starred_df)
   else ret tt) ;;
  print ("Starred repositories exported to " +:+ output).

(** [visualize], lines 27-41; [fig] is [None] on the branch that prints
    and returns. *)
Definition visualize (repo_manager : Manager) (type output : string) : M unit :=
  df <- get_repos_dataframe repo_manager ;;
  let fig :=
    if String.eqb type "language_distribution" then
      Some (mkFigure "Language Distribution" df)
    else if String.eqb type "stars_vs_forks" then
      Some (mkFigure "Stars vs. Forks" df)
    else if String.eqb type "creation_timeline" then
      Some (mkFigure "Repository Creation Timeline" df)
    else None in
  match fig with
  | None => print ("Unknown visualization type: " +:+ type)
  | Some fig =>
      write_file output (Image fig) ;;
      print ("Visualization saved to " +:+ output)
  end.

(** [load_token_from_env], lines 43-50 *)
Definition load_token_from_env : M (option string) :=
  fun w =>
    match token_env w with
    | Some file => (load_dotenv file ;; getenv "GITHUB_TOKEN") w
    | None => (Ret None, w)
    end.

(** The [choices] of the three restricted arguments, lines 59, 63, 65. *)
Definition action_choices : list string :=
  ["stats"; "list"; "create"; "delete"; "export"; "stars"; "visualize"].

Definition format_choices : list string := ["csv"; "xlsx"].

Definition type_choices : list string :=
  ["language_distribution"; "stars_vs_forks"; "creation_timeline"].

(** [parser.error(message)]: the usage message goes to the error stream and
    the process exits with status 2. *)
Definition error {A} (message : string) : M A :=
  fun w => (Raise (SystemExit 2), set_stderr (stderr w ++ [Usage message]) w).

Definition check_choice (argument : string) (choices : list string) (value : option string) : M unit :=
  match value with
  | None => ret tt
  | Some v =>
      if bool_decide (v ∈ choices) then ret tt
      else error ("argument " +:+ argument +:+ ": invalid choice: '" +:+ v +:+ "'")
  end.

(** [parser.parse_args()] for the parser declared on lines 58-65: one
    positional [action] out of its choices, [--format] and [--type] out of
    theirs, nothing undeclared.  Every failure is a usage error. *)
Definition parse_args (inv : Invocation) : M Namespace.t :=
  match positionals inv with
  | [] => error "the following arguments are required: action"
  | a :: extra =>
      check_choice "action" action_choices (Some a) ;;
      check_choice "--format" format_choices (given_format inv) ;;
      check_choice "--type" type_choices (given_type inv) ;;
      match (extra ++ unrecognized inv)%list with
      | [] =>
          ret (Namespace.mk a (given_name inv) (given_description inv) (given_private inv)
                 (given_format inv) (given_output inv) (given_type inv))
      | _ :: _ => error "unrecognized arguments"
      end
  end.

(** [main], lines 52-105 *)
Definition main (inv : Invocation) : M unit :=
  token <- load_token_from_env ;;
  if negb (truthy token) then
    print "GitHub token not found. Please set up your token in token.env file."
  else
    args <- parse_args inv ;;
    repo_manager <- GithubRepoManager (the token) ;;
    if String.eqb (Namespace.action args) "stats" then
      stats <- get_repo_stats repo_manager ;;
      for_each stats (fun '(key, value) => print (key +:+ ": " +:+ pretty value))
    else if String.eqb (Namespace.action args) "list" then
      repos <- all_repos repo_manager ;;
      for_each repos (fun repo => print (Repo.name repo +:+ " - " +:+ fmt (Repo.description repo)))
    else if String.eqb (Namespace.action args) "create" then
      if negb (truthy (Namespace.name args)) then
        print "Repository name is required for create action"
      else
        repo <- create_repo repo_manager (the (Namespace.name args))
                  (Namespace.description args) (Namespace.private args) false None None ;;
        print ("Repository created: " +:+ Repo.html_url repo)
    else if String.eqb (Namespace.action args) "delete" then
      if negb (truthy (Namespace.name args)) then
        print "Repository name is required for delete action"
      else
        delete_repo repo_manager (the (Namespace.name args)) ;;
        print ("Repository " +:+ the (Namespace.name args) +:+ " deleted")
    else if String.eqb (Namespace.action args) "export" then
      if negb (truthy (Namespace.format args)) || negb (truthy (Namespace.output args)) then
        print "Format and output file name are required for export action"
      else
        export_data repo_manager (the (Namespace.format args)) (the (Namespace.output args))
    else if String.eqb (Namespace.action args) "stars" then
      if negb (truthy (Namespace.format args)) || negb (truthy (Namespace.output args)) then
        print "Format and output file name are required for stars action"
      else
        export_stars repo_manager (the (Namespace.format args)) (the (Namespace.output args))
    else if String.eqb (Namespace.action args) "visualize" then
      if negb (truthy (Namespace.type args)) || negb (truthy (Namespace.output args)) then
        print "Visualization type and output file name are required for visualize action"
      else
        visualize repo_manager (the (Namespace.type args)) (the (Namespace.output args))
    else ret tt.

(** Running the script: [main()] under [if __name__ == "__main__"].  The
    exit status is 0 when [main] returns, the code of a [SystemExit], and 1
    with a traceback on the error stream for any other exception. *)
Definition run (inv : Invocation) (w : World) : nat * World :=
  match main inv w with
  | (Ret _, w') => (0, w')
  | (Raise (SystemExit code), w') => (code, w')
  | (Raise e, w') => (1, set_stderr (stderr w' ++ [Traceback e]) w')
  end.

End cli.

(** ** [app.py] *)

(** The state of the page's input widgets when the script runs: each field
    is what the widget call of that name returns.  Static texts of the page
    (style sheet, help, about) are cut to their first words. *)
Record Widgets := mkWidgets {
  (** [option_menu]: the chosen entry of the main menu *)
  selected : string;
  (** [st.number_input], between 1 and 50 *)
  num_recent_repos : nat;
  show_all_commits : bool;
  filter_user_commits : bool;
  (** the button "Prepare Commits for Export" *)
  prepare_export : bool;
  format_owned : bool;
  (** the form of the Create page and its submit button *)
  repo_name : string;
  description : string;
  private : bool;
  auto_init : bool;
  gitignore_template : string;
  license_template : string;
  submitted : bool;
  (** the Delete page: position chosen in the select box (0 until the user
      chooses), typed confirmation, the button "Delete Repository" *)
  selectbox_index : nat;
  confirmation : string;
  delete_button : bool
}.

(** [st.selectbox(label, options)]: the option at the chosen position,
    [None] when there is none. *)
Definition selectbox (options : list string) (index : nat) : option string :=
  options !! index.

(** [x if x else None] *)
Definition or_none (x : string) : option string :=
  if String.eqb x "" then None else Some x.

(** [df[mask]] for a mask computed row by row. *)
Definition select {A} (mask : A -> bool) (rows : list (nat * A)) : list (nat * A) :=
  List.filter (fun r => mask (snd r)) rows.

(** [series.isin(values)] on the author column. *)
Definition isin (values : list (option string)) (author : string) : bool :=
  bool_decide (Some author ∈ values).

(** [series.nunique()] and [series.unique()] *)
Definition unique (l : list string) : list string := remove_dups l.

Definition nunique (l : list string) : nat := length (unique l).

(** The commits of the table written by the user, and those of others
    (lines 284 and 291). *)
Definition owned_commits (user_login : string) (user_name : option string)
    (df_commits : list (nat * CommitRow)) : list (nat * CommitRow) :=
  select (fun c => isin [Some user_login; user_name] (c_author c)) df_commits.

Definition other_commits (user_login : string) (user_name : option string)
    (df_commits : list (nat * CommitRow)) : list (nat * CommitRow) :=
  select (fun c => negb (isin [Some user_login; user_name] (c_author c))) df_commits.

(** The dictionary appended for one commit (lines 93-99 and 258-264). *)
Definition commit_row (repo : Repo.t) (commit : Commit.t) : CommitRow :=
  mkCommitRow (Repo.name repo) (Commit.message commit) (Commit.author_date commit)
    (Commit.author_name commit) (Commit.html_url commit).

(** Repositories the account may administer, by name (line 55). *)
Definition admin_names (repos : list Repo.t) : list string :=
  map Repo.name (List.filter Repo.admin repos).

Definition more_stars (a b : nat * RepoRow) : Prop :=
  col_stars (snd b) <= col_stars (snd a).

#[global] Instance more_stars_dec : RelDecision more_stars.
Proof. intros a b. unfold more_stars. apply _. Defined.

(** [df.nlargest(n, 'stars')] *)
Definition nlargest (n : nat) (df : DataFrame) : DataFrame :=
  match df with
  | RepoFrame rows => RepoFrame (take n (merge_sort more_stars rows))
  | other => other
  end.

Definition nl : string := String (Ascii.ascii_of_nat 10) "".

Module app.

(** [COLORS], lines 12-19 *)
Definition COLORS (key : string) : string :=
  if String.eqb key "total" then "#7C9EFF"
  else if String.eqb key "owned" then "#80DEEA"
  else if String.eqb key "public" then "#FFD54F"
  else if String.eqb key "private" then "#AED581"
  else if String.eqb key "forked" then "#FF8A65"
  else if String.eqb key "archived" then "#B39DDB"
  else "".

(** [load_token_from_env], lines 21-26 *)
Definition load_token_from_env : M (option string) :=
  fun w =>
    match token_env w with
    | Some file => (load_dotenv file ;; getenv "GITHUB_TOKEN") w
    | None => (Ret None, w)
    end.

Definition span (color value : string) : string :=
  "<span style='color:" +:+ color +:+ ";font-weight:bold;'>" +:+ value +:+ "</span>".

(** [create_summary], lines 28-37 *)
Definition create_summary (repo_manager : Manager) (stats : dict nat) : M string :=
  let username := User.login (user repo_manager) in
  total <- getitem stats "Total Repositories" ;;
  owned <- getitem stats ("Owned by " +:+ username) ;;
  public <- getitem stats "Public" ;;
  private <- getitem stats "Private" ;;
  forked <- getitem stats "Forked" ;;
  archived <- getitem stats "Archived" ;;
  ret (nl +:+ "    Successfully authenticated as GitHub user: **" +:+ username +:+ "**" +:+ nl
       +:+ "    " +:+ nl
       +:+ "    Found a total of " +:+ span (COLORS "total") (pretty total)
       +:+ " repositories, of which " +:+ span (COLORS "owned") (pretty owned)
       +:+ " are owned by " +:+ username +:+ "." +:+ nl
       +:+ "    This includes " +:+ span (COLORS "public") (pretty public)
       +:+ " public and " +:+ span (COLORS "private") (pretty private)
       +:+ " private repositories." +:+ nl
       +:+ "    " +:+ nl
       +:+ "    Among these, there are " +:+ span (COLORS "forked") (pretty forked)
       +:+ " forked repositories and " +:+ span (COLORS "archived") (pretty archived)
       +:+ " archived repositories." +:+ nl +:+ "    ").

(** [delete_repository], lines 50-75 *)
Definition delete_repository (repo_manager : Manager) (ui : Widgets) : M unit :=
  st (st_header "Delete Repository") ;;
  repos <- all_repos repo_manager ;;
  let repo_names := admin_names repos in
  let selected_repo := selectbox repo_names (selectbox_index ui) in
  if truthy selected_repo then
    st (st_warning ("You are about to delete the repository: " +:+ the selected_repo)) ;;
    st (st_write "This action cannot be undone. Please type the repository name to confirm.") ;;
    if delete_button ui then
      if String.eqb (confirmation ui) (the selected_repo) then
        try_except_github
          (delete_repo repo_manager (the selected_repo) ;;
           st (st_success ("Repository " +:+ the selected_repo +:+ " has been deleted successfully.")))
          (fun e => st (st_error ("An error occurred while deleting the repository: " +:+ str e)))
      else
        st (st_error "Confirmation does not match the repository name. Deletion aborted.")
    else ret tt
  else ret tt.

(** [create_repository], lines 102-137 *)
Definition create_repository (repo_manager : Manager) (ui : Widgets) : M unit :=
  st (st_header "Create New Repository") ;;
  st (st_write "This section allows you to create a new GitHub repository directly from the app.") ;;
  if submitted ui then
    try_except_github
      (new_repo <- create_repo repo_manager (repo_name ui) (Some (description ui))
                     (private ui) (auto_init ui)
                     (or_none (gitignore_template ui)) (or_none (license_template ui)) ;;
       st (st_success ("Repository '" +:+ repo_name ui +:+ "' created successfully! URL: "
                       +:+ Repo.html_url new_repo)))
      (fun e => st (st_error ("An error occurred while creating the repository: " +:+ str e)))
  else ret tt.

(** [initialize_repo_manager], lines 139-147 *)
Definition initialize_repo_manager : M (option Manager * option string) :=
  token <- load_token_from_env ;;
  if negb (truthy token) then
    ret (None, Some "GitHub token not found. Please set up your token.")
  else
    try_except_exception
      (repo_manager <- GithubRepoManager (the token) ;; ret (Some repo_manager, None))
      (fun e => ret (None, Some ("Error initializing GitHub connection: " +:+ str e))).

Section Rendering.

(** [datetime.strftime(format)], the standard library's. *)
Variable strftime : string -> Z -> string.

(** [format_datetime], lines 47-48 *)
Definition format_datetime (dt : Z) : string := strftime "%b %d, %Y %I:%M %p" dt.

(** [export_to_csv], lines 77-86 *)
Definition export_to_csv (data : DataFrame) (filename : string) : M unit :=
  fun w =>
    let current_date := strftime "%Y-%m-%d" (clock w) in
    let filename_with_date := current_date +:+ "_" +:+ filename in
    let csv_file := Csv data in
    st (st_download_button "Download CSV" csv_file filename_with_date "text/csv") w.

(** The loop of [get_all_commits], lines 90-99 *)
Fixpoint collect_commits (repo_manager : Manager) (repos : list Repo.t)
    (all_commits : list CommitRow) : M (list CommitRow) :=
  match repos with
  | [] => ret all_commits
  | repo :: rest =>
      commits <- get_repo_commits repo_manager repo ;;
      collect_commits repo_manager rest (all_commits ++ map (commit_row repo) commits)
  end.

(** [get_all_commits], lines 88-100 *)
Definition get_all_commits (repo_manager : Manager) (repos : list Repo.t) : M DataFrame :=
  all_commits <- collect_commits repo_manager repos [] ;;
  ret (CommitFrame (range_index all_commits)).

Definition metric_label (color key : string) : string :=
  "<p style='color:" +:+ color +:+ ";font-weight:bold;font-size:18px;text-align:center;'>"
  +:+ key +:+ "</p>".

Definition metric_value (color : string) (value : nat) : string :=
  "<h2 style='color:" +:+ color +:+ ";font-weight:bold;text-align:center;'>"
  +:+ pretty value +:+ "</h2>".

(** The list [metrics], lines 220-227 *)
Definition metrics (repo_manager : Manager) (stats : dict nat) : M (list (string * nat * string)) :=
  let login := User.login (user repo_manager) in
  total <- getitem stats "Total Repositories" ;;
  owned <- getitem stats ("Owned by " +:+ login) ;;
  public <- getitem stats "Public" ;;
  private <- getitem stats "Private" ;;
  forked <- getitem stats "Forked" ;;
  archived <- getitem stats "Archived" ;;
  ret [ ("Total Repositories", total, COLORS "total");
        ("Owned by " +:+ login, owned, COLORS "owned");
        ("Public", public, COLORS "public");
        ("Private", private, COLORS "private");
        ("Forked", forked, COLORS "forked");
        ("Archived", archived, COLORS "archived") ].

(** The loop over [enumerate(metrics)], lines 228-237: metric [i] goes to
    column [i % 3]. *)
Fixpoint show_metrics (i : nat) (ms : list (string * nat * string)) : M unit :=
  match ms with
  | [] => ret tt
  | (key, value, color) :: rest =>
      st (in_column (i mod 3) (st_markdown (metric_label color key))) ;;
      st (in_column (i mod 3) (st_markdown (metric_value color value))) ;;
      show_metrics (S i) rest
  end.

(** The Stats page, lines 213-237 *)
Definition stats_page (repo_manager : Manager) : M unit :=
  st (st_header "Repository Statistics 📊") ;;
  stats <- get_repo_stats repo_manager ;;
  summary <- create_summary repo_manager stats ;;
  st (st_markdown summary) ;;
  ms <- metrics repo_manager stats ;;
  show_metrics 0 ms.

(** The loop over [enumerate(recent_repos, 1)], lines 251-270 *)
Fixpoint list_recent (repo_manager : Manager) (ui : Widgets) (i : nat)
    (recent_repos : list Repo.t) (all_commits : list CommitRow) : M (list CommitRow) :=
  match recent_repos with
  | [] => ret all_commits
  | repo :: rest =>
      st (st_write (pretty i +:+ ". **" +:+ Repo.name repo +:+ "** - Last updated: "
                    +:+ format_datetime (Repo.updated_at repo))) ;;
      commits <- get_repo_commits repo_manager repo ;;
      match commits with
      | _ :: _ =>
          if show_all_commits ui then
            list_recent repo_manager ui (S i) rest (all_commits ++ map (commit_row repo) commits)
          else
            for_each commits (fun commit =>
              st (st_write ("- " +:+ Commit.message commit +:+ " ("
                            +:+ format_datetime (Commit.author_date commit) +:+ ")"))) ;;
            list_recent repo_manager ui (S i) rest all_commits
      | [] =>
          st (st_write "No commits found in this repository.") ;;
          list_recent repo_manager ui (S i) rest all_commits
      end
  end.

(** [owned_summary], lines 285-288 *)
Definition owned_summary (owned_repos : list (nat * CommitRow)) : string :=
  nl +:+ "                You have made "
  +:+ span "#4CAF50" (pretty (length owned_repos)) +:+ " commits " +:+ nl
  +:+ "                across "
  +:+ span "#4CAF50" (pretty (nunique (map (fun r => c_repo (snd r)) owned_repos)))
  +:+ " repositories." +:+ nl +:+ "                ".

(** [other_summary], lines 292-295 *)
Definition other_summary (other_repos : list (nat * CommitRow)) : string :=
  nl +:+ "                There are "
  +:+ span "#2196F3" (pretty (length other_repos)) +:+ " commits " +:+ nl
  +:+ "                by other authors across "
  +:+ span "#2196F3" (pretty (nunique (map (fun r => c_repo (snd r)) other_repos)))
  +:+ " repositories." +:+ nl +:+ "                ".

(** The branch [if filter_user_commits], lines 278-311; it returns the
    table to show. *)
Definition filter_commits (repo_manager : Manager) (df_commits : list (nat * CommitRow))
    : M (list (nat * CommitRow)) :=
  let user_login := User.login (user repo_manager) in
  let user_name := User.name (user repo_manager) in
  st (st_write ("Filtering commits by " +:+ user_login +:+ " (username) and "
                +:+ fmt user_name +:+ " (full name)")) ;;
  let owned_repos := owned_commits user_login user_name df_commits in
  let other_repos := other_commits user_login user_name df_commits in
  st (st_markdown (owned_summary owned_repos)) ;;
  st (st_markdown (other_summary other_repos)) ;;
  st (st_write "Unique authors in the dataset:") ;;
  for_each (unique (map (fun r => c_author (snd r)) df_commits)) (fun author =>
    let color := if isin [Some user_login; user_name] author then "#4CAF50" else "#2196F3" in
    st (st_markdown ("<span style='color:" +:+ color +:+ ";'>" +:+ author +:+ "</span>"))) ;;
  let df_filtered := owned_repos in
  st (st_write ("Showing " +:+ pretty (length df_filtered) +:+ " commits for "
                +:+ user_login +:+ "/" +:+ fmt user_name)) ;;
  (if Nat.eqb (length df_filtered) 0 then
     st (st_warning "No commits found for the current user. This might be due to a mismatch between your GitHub username/name and the commit author name.")
   else ret tt) ;;
  ret df_filtered.

(** The Activity page, lines 239-333.  The ['date'] column keeps the
    timestamp; its display format is left to the table element. *)
Definition activity_page (repo_manager : Manager) (ui : Widgets) : M unit :=
  st (st_header "Recent Activity 🕒") ;;
  st (st_subheader "Recently Active Repositories") ;;
  recent_repos <- get_recent_repos repo_manager (num_recent_repos ui) ;;
  all_commits <- list_recent repo_manager ui 1 recent_repos [] ;;
  (if show_all_commits ui && negb (Nat.eqb (length all_commits) 0) then
     st (st_subheader "All Recent Commits") ;;
     let df_commits := range_index all_commits in
     df_commits <- (if filter_user_commits ui then filter_commits repo_manager df_commits
                    else ret df_commits) ;;
     st (st_dataframe (CommitFrame df_commits))
   else if show_all_commits ui then
     st (st_write "No commits found in any of the recent repositories.")
   else ret tt) ;;
  st (st_subheader "Export All Commits") ;;
  (if prepare_export ui then
     all_commits_df <- get_all_commits repo_manager recent_repos ;;
     st (st_success "Commits fetched successfully!") ;;
     export_to_csv all_commits_df (User.login (user repo_manager) +:+ "_all_commits.csv")
   else ret tt) ;;
  let activity_data := map (fun repo => (Repo.name repo, Repo.updated_at repo)) recent_repos in
  match activity_data with
  | [] => raise (ValueError "Value of 'x' is not the name of a column in 'data_frame'")
  | _ :: _ =>
      st (st_plotly_chart (mkFigure "Recent Repository Activity"
                             (ActivityFrame (range_index activity_data))))
  end.

(** [df['is_owner'].sum()] *)
Definition owned_count (df : DataFrame) : nat :=
  match df with
  | RepoFrame rows => length (select col_is_owner rows)
  | _ => 0
  end.

(** The Data page, lines 335-350; [format_dataframe] (lines 39-45) only
    colours the rows and is kept as the flag of [st_styled]. *)
Definition data_page (repo_manager : Manager) (ui : Widgets) : M unit :=
  st (st_header "Repository Data 📁") ;;
  df <- get_repos_dataframe repo_manager ;;
  (if format_owned ui then
     let non_owned_count := len df - owned_count df in
     st (st_markdown ("You own <span style='color:red;font-weight:bold;'>"
                      +:+ pretty (owned_count df)
                      +:+ "</span> repositories and have access to <span style='color:red;font-weight:bold;'>"
                      +:+ pretty non_owned_count +:+ "</span> repositories owned by others."))
   else ret tt) ;;
  st (st_styled df (format_owned ui)) ;;
  export_to_csv df (User.login (user repo_manager) +:+ "_repository_data.csv").

(** The Visualize page, lines 352-376 *)
Definition visualize_page (repo_manager : Manager) : M unit :=
  st (st_header "Visualizations 📈") ;;
  st (st_write "This section provides visual insights into your GitHub repositories using Plotly charts.") ;;
  df <- get_repos_dataframe repo_manager ;;
  st (in_column 0 (st_plotly_chart (mkFigure "Language Distribution" df))) ;;
  st (in_column 1 (st_plotly_chart (mkFigure "Stars vs. Forks" df))) ;;
  st (st_plotly_chart (mkFigure "Repository Creation Timeline" df)).

(** The Stars page, lines 378-410 *)
Definition stars_page (repo_manager : Manager) : M unit :=
  st (st_header "Starred Repositories ⭐") ;;
  st (st_write "This section analyzes and visualizes your starred repositories on GitHub.") ;;
  starred_df <- get_starred_repos repo_manager ;;
  st (st_subheader ("Total Starred Repositories: " +:+ pretty (len starred_df))) ;;
  st (st_dataframe starred_df) ;;
  st (st_plotly_chart (mkFigure "Language Distribution of Starred Repositories" starred_df)) ;;
  let top_10_starred := nlargest 10 starred_df in
  st (st_plotly_chart (mkFigure "Top 10 Most Starred Repositories" top_10_starred)) ;;
  st (st_subheader "Export Starred Repositories Data") ;;
  export_to_csv starred_df (User.login (user repo_manager) +:+ "_starred_repositories.csv").

(** [main], lines 149-424 *)
Definition main (ui : Widgets) : M unit :=
  st (st_markdown "<style>") ;;
  r <- initialize_repo_manager ;;
  let '(repo_manager, error) := r in
  if truthy error then
    st (st_error (the error)) ;;
    st (st_info "See the 'Need help?' section above for instructions on how to create and set up your GitHub token.")
  else
    match repo_manager with
    | None => raise (AttributeError "'NoneType' object has no attribute 'user'")
    | Some repo_manager =>
        let user := user repo_manager in
        st (st_write "This app allows you to manage and visualize your GitHub repositories efficiently") ;;
        st (in_sidebar (st_image (User.avatar_url user))) ;;
        st (in_sidebar (st_write ("Welcome, **" +:+ fmt (User.name user) +:+ "**!"))) ;;
        (if String.eqb (selected ui) "Stats 📊" then stats_page repo_manager
         else if String.eqb (selected ui) "Activity 🕒" then activity_page repo_manager ui
         else if String.eqb (selected ui) "Data 📁" then data_page repo_manager ui
         else if String.eqb (selected ui) "Visualize 📈" then visualize_page repo_manager
         else if String.eqb (selected ui) "Stars ⭐" then stars_page repo_manager
         else if String.eqb (selected ui) "Create 🆕" then create_repository repo_manager ui
         else if String.eqb (selected ui) "Delete 🗑️" then delete_repository repo_manager ui
         else ret tt) ;;
        st (in_sidebar (st_markdown "### About this app"))
    end.

(** One run of the script by streamlit: an exception that [main] lets
    through is shown on the page as an exception box. *)
Definition run (ui : Widgets) (w : World) : World :=
  match main ui w with
  | (Ret _, w') => w'
  | (Raise e, w') => set_page (page w' ++ [st_exception e]) w'
  end.

End Rendering.

End app.

(** ** Vocabulary of the statements *)

(** The error the Delete page shows when the confirmation differs. *)
Definition abort_error : Element :=
  st_error "Confirmation does not match the repository name. Deletion aborted.".

(** The token-setup errors of the two programs. *)
Definition cli_token_error : string :=
  "GitHub token not found. Please set up your token in token.env file.".

Definition app_token_error : string :=
  "GitHub token not found. Please set up your token.".




(** Calls that only read from the platform. *)
Definition is_read (q : Request) : bool :=
  match q with
  | GetUser | ListRepos | ListStarred | ListCommits _ => true
  | CreateRepo _ _ _ _ _ _ | DeleteRepo _ => false
  end.

(** [c] keeps [R]: the world after [c] is related by [R] to the world
    before, whatever [c] returns or raises. *)
Definition keeps {A} (R : relation World) (c : M A) : Prop :=
  forall w, R w (snd (c w)).

(** From [w] to [w'] the platform's state is the same, every call made was
    a read, and every file written has a path satisfying [P]. *)
Definition frame (P : string -> Prop) (w w' : World) : Prop :=
  remote w' = remote w
  /\ (exists calls, requests w' = (requests w ++ calls)%list
                   /\ Forall (fun x => is_read (fst x) = true) calls)
  /\ (exists files, written w' = (written w ++ files)%list
                   /\ Forall (fun f => P (fst f)) files).

(** The page element [el] tells the user about the exception [e]: an
    [st.error] whose text ends with [str(e)], or the exception box. *)
Definition shows_error (e : exn) (el : Element) : Prop :=
  el = st_exception e \/ exists prefix, el = st_error (prefix +:+ str e).

(** The operations of the manager, as the specification lists them. *)
Inductive ManagerOp :=
| op_list
| op_stats
| op_recent (n : nat)
| op_commits (repo : Repo.t)
| op_create (name : string) (description : option string) (private auto_init : bool)
    (gitignore_template license_template : option string)
| op_delete (name : string)
| op_stars.

(** Performing an operation, its value dropped. *)
Definition perform (repo_manager : Manager) (op : ManagerOp) : M unit :=
  match op with
  | op_list => all_repos repo_manager ;; ret tt
  | op_stats => get_repo_stats repo_manager ;; ret tt
  | op_recent n => get_recent_repos repo_manager n ;; ret tt
  | op_commits repo => get_repo_commits repo_manager repo ;; ret tt
  | op_create name description private auto_init gitignore_template license_template =>
      create_repo repo_manager name description private auto_init
        gitignore_template license_template ;; ret tt
  | op_delete name => delete_repo repo_manager name
  | op_stars => get_starred_repos repo_manager ;; ret tt
  end.

(** A logged call that was answered without an error. *)
Definition succeeded (x : Request * option exn) : Prop := snd x = None.

(** How the calls of a run went: all succeeded, or all but the last did
    and the last failed with the API error [status], [data], about which
    [seen] then holds. *)
Definition fail_stop (calls : list (Request * option exn)) (seen : exn -> Prop) : Prop :=
  Forall succeeded calls
  \/ exists before q status data,
       calls = (before ++ [(q, Some (GithubException status data))])%list
       /\ Forall succeeded before
       /\ seen (GithubException status data).

(** [c] makes no call after a failed one, and raises the error of a failed call. *)
Definition propagates {A} (c : M A) : Prop :=
  forall w, exists els calls,
    page (snd (c w)) = (page w ++ els)%list
    /\ requests (snd (c w)) = (requests w ++ calls)%list
    /\ fail_stop calls (fun e => fst (c w) = Raise e).

(** [c] makes no call after a failed one, and raises the error of a failed
    call or shows it on the page. *)
Definition surfaces {A} (c : M A) : Prop :=
  forall w, exists els calls,
    page (snd (c w)) = (page w ++ els)%list
    /\ requests (snd (c w)) = (requests w ++ calls)%list
    /\ fail_stop calls (fun e => fst (c w) = Raise e \/ Exists (shows_error e) els).

(** [c] makes no call. *)
Definition quiet {A} (c : M A) : Prop :=
  forall w, requests (snd (c w)) = requests w
            /\ exists els, page (snd (c w)) = (page w ++ els)%list.

(** The request an operation of the manager sends. *)
Definition request_of (op : ManagerOp) : Request :=
  match op with
  | op_list | op_stats | op_recent _ => ListRepos
  | op_commits repo => ListCommits (full_name repo)
  | op_create name description private auto_init gitignore_template license_template =>
      CreateRepo name description private auto_init gitignore_template license_template
  | op_delete name => DeleteRepo name
  | op_stars => ListStarred
  end.

(** ** A fixture

    A small account on which the statements below are also evaluated:
    three accessible repositories (two owned, one of another owner without
    admin rights), one starred repository, three commits. *)
Module Fixture.

Definition alice : User.t := User.mk "alice" (Some "Alice A") "https://avatars.example/alice.png".

Definition demo : Repo.t :=
  Repo.mk "demo" "alice" (Some "a demo") false false false 3 1 (Some "Python") 10 50 true
    "https://github.com/alice/demo".

Definition lib : Repo.t :=
  Repo.mk "lib" "bob" None true true false 5 2 None 20 70 false "https://github.com/bob/lib".

Definition old : Repo.t :=
  Repo.mk "old" "alice" None false false true 0 0 (Some "C") 5 30 true
    "https://github.com/alice/old".

Definition init : Commit.t := Commit.mk "init" "alice" 11 "https://github.com/alice/demo/commit/1".

Definition fix_typo : Commit.t := Commit.mk "fix typo" "Bob B" 12 "https://github.com/alice/demo/commit/2".

Definition bump : Commit.t := Commit.mk "bump" "Alice A" 21 "https://github.com/bob/lib/commit/1".

Definition hub : Remote :=
  mkRemote alice [demo; lib; old] [lib]
    [("alice/demo", [init; fix_typo]); ("bob/lib", [bump])].

(** A machine with [token.env] in place and nothing else. *)
Definition world : World :=
  mkWorld hub [] [] (Some {["GITHUB_TOKEN" := "ghp_file"]}) ∅ [] [] [] [] 1000.

(** The same machine without [token.env]. *)
Definition world_without_token : World :=
  mkWorld hub [] [] None ∅ [] [] [] [] 1000.

(** The same machine with [GITHUB_TOKEN] already exported by the shell. *)
Definition world_with_exported_token : World :=
  mkWorld hub [] [] (Some {["GITHUB_TOKEN" := "ghp_file"]}) {["GITHUB_TOKEN" := "ghp_shell"]}
    [] [] [] [] 1000.

(** The platform answers the second call with a rate-limit error. *)
Definition world_rate_limited : World :=
  mkWorld hub [None; Some (403, "API rate limit exceeded")] []
    (Some {["GITHUB_TOKEN" := "ghp_file"]}) ∅ [] [] [] [] 1000.

Definition manager : Manager := mkManager "ghp_file" alice.

Definition strftime (format : string) (dt : Z) : string := pretty dt.

(** Widgets as a fresh session has them, on the given page. *)
Definition widgets (selected : string) : Widgets :=
  mkWidgets selected 10 true true false true
    "" "This repo was created by Github Streamlit!" false false "" "" false
    0 "" false.

(** The Delete page with a confirmation typed and the button pressed or not. *)
Definition delete_widgets (confirmation : string) (delete_button : bool) : Widgets :=
  mkWidgets "Delete 🗑️" 10 true true false true
    "" "This repo was created by Github Streamlit!" false false "" "" false
    0 confirmation delete_button.

(** The Create page with the form submitted for a repository name. *)
Definition create_widgets (repo_name : string) : Widgets :=
  mkWidgets "Create 🆕" 10 true true false true
    repo_name "This repo was created by Github Streamlit!" false false "" "" true
    0 "" false.

(** A command line: the action word and the options given. *)
Definition command (action : list string) (name format output type : option string) : Invocation :=
  mkInvocation action name None false format output type [].

End Fixture.

(** ** Vocabulary of the further statements *)






(** [key in d] and [d.get(key)] *)
Definition get {V} (d : dict V) (key : string) : option V :=
  snd <$> List.find (fun kv => bool_decide (fst kv = key)) d.

(** The keys the Stats page reads, in reading order. *)
Definition stats_keys (login : string) : list string :=
  [ "Total Repositories"; "Owned by " +:+ login; "Public"; "Private"; "Forked"; "Archived" ].

(** The first of [keys] that [d] lacks. *)
Definition first_missing {V} (keys : list string) (d : dict V) : option string :=
  List.find (fun k => match get d k with Some _ => false | None => true end) keys.

(** The commits the platform holds for a repository. *)
Definition commits_of (r : Remote) (repo : Repo.t) : list Commit.t :=
  default [] (snd <$> List.find (fun kv => bool_decide (fst kv = full_name repo)) (r_commits r)).

(** The log entries of answered commit fetches, one per repository. *)
Definition fetches (repos : list Repo.t) : list (Request * option exn) :=
  map (fun repo => (ListCommits (full_name repo), None)) repos.

(** The rows the commit table gets for a list of repositories. *)
Definition commit_rows (r : Remote) (repos : list Repo.t) : list CommitRow :=
  flat_map (fun repo => map (commit_row repo) (commits_of r repo)) repos.

(** The platform answers the next [n] calls: the fault schedule holds no
    error for them. *)
Definition answers (n : nat) (w : World) : Prop :=
  Forall (fun f => f = None) (take n (faults w)).


(** [c] raises nothing but exceptions satisfying [P]. *)
Definition raises_only {A} (P : exn -> Prop) (c : M A) : Prop :=
  forall w e, fst (c w) = Raise e -> P e.

(** An API error of the client library. *)
Definition api_error (e : exn) : Prop :=
  exists status data, e = GithubException status data.

(** What a run of the dashboard may raise: an API error, or the
    [ValueError] of the chart over an empty table. *)
Definition dashboard_error (e : exn) : Prop :=
  api_error e \/ exists message, e = ValueError message.

(** * Properties *)

(** ** Tables *)

Lemma range_index_labels {A} (rows : list A) (start : nat) :
  map fst (combine (seq start (length rows)) rows) = seq start (length rows).
Proof.
  revert start. induction rows as [|x rows IH]; intros start; simpl; [reflexivity|].
  f_equal. apply IH.
Qed.

Lemma range_index_rows {A} (rows : list A) (start : nat) :
  map snd (combine (seq start (length rows)) rows) = rows.
Proof.
  revert start. induction rows as [|x rows IH]; intros start; simpl; [reflexivity|].
  f_equal. apply IH.
Qed.

Lemma range_index_NoDup {A} (rows : list A) : NoDup (map fst (range_index rows)).
Proof. unfold range_index. rewrite range_index_labels. apply NoDup_seq. Qed.

Lemma range_index_length {A} (rows : list A) : length (range_index rows) = length rows.
Proof. rewrite <- (length_map snd). unfold range_index. now rewrite range_index_rows. Qed.

Lemma select_spec {A} (mask : A -> bool) (rows : list (nat * A)) (r : nat * A) :
  r ∈ select mask rows <-> r ∈ rows /\ mask (snd r) = true.
Proof. unfold select. rewrite !list_elem_of_In. apply filter_In. Qed.

Lemma isin_spec (values : list (option string)) (author : string) :
  isin values author = true <-> Some author ∈ values.
Proof. unfold isin. apply bool_decide_eq_true. Qed.

(** Two rows of a table with the same label are the same row. *)
Lemma label_determines_row {A} (rows : list (nat * A)) (i : nat) (a b : A) :
  NoDup (map fst rows) -> (i, a) ∈ rows -> (i, b) ∈ rows -> a = b.
Proof.
  induction rows as [|[j c] rows IH]; simpl; intros Hnd Ha Hb.
  - inversion Ha.
  - apply NoDup_cons in Hnd as [Hj Hnd].
    apply elem_of_cons in Ha as [Ha|Ha]; apply elem_of_cons in Hb as [Hb|Hb].
    + congruence.
    + inversion Ha; subst. exfalso. apply Hj.
      apply (list_elem_of_fmap_2 fst) in Hb. exact Hb.
    + inversion Hb; subst. exfalso. apply Hj.
      apply (list_elem_of_fmap_2 fst) in Ha. exact Ha.
    + eauto.
Qed.

(** The author test [isin([user_login, user_name])] splits a table in two. *)
Lemma author_test_partitions
    (user_login : string) (user_name : option string) (all_commits : list CommitRow) :
  let df_commits := range_index all_commits in
  let owned_repos := owned_commits user_login user_name df_commits in
  let other_repos := other_commits user_login user_name df_commits in
  length owned_repos + length other_repos = length all_commits
  /\ (forall row, row ∈ owned_repos <->
        row ∈ df_commits /\
        (c_author (snd row) = user_login \/ Some (c_author (snd row)) = user_name))
  /\ (forall row, row ∈ df_commits <-> row ∈ owned_repos \/ row ∈ other_repos)
  /\ (forall label, label ∈ map fst owned_repos -> label ∈ map fst other_repos -> False).
Proof.
  intros df_commits owned_repos other_repos.
  split; [|split; [|split]].
  - unfold owned_repos, other_repos, owned_commits, other_commits, select.
    rewrite (filter_length (fun r => isin [Some user_login; user_name] (c_author (snd r)))).
    apply range_index_length.
  - intros row. unfold owned_repos, owned_commits. rewrite select_spec, isin_spec.
    rewrite elem_of_cons, list_elem_of_singleton.
    split; intros [H [Hl|Hn]]; split; auto; left; congruence.
  - intros row. unfold owned_repos, other_repos, owned_commits, other_commits.
    rewrite !select_spec.
    destruct (isin [Some user_login; user_name] (c_author (snd row))); simpl;
      intuition congruence.
  - intros label Ho Ht.
    apply list_elem_of_fmap in Ho as [[i a] [-> Ha]].
    apply list_elem_of_fmap in Ht as [[j b] [Hij Hb]]. simpl in Hij. subst j.
    apply select_spec in Ha as [Ha Hma]. apply select_spec in Hb as [Hb Hmb].
    assert (a = b) by (eapply label_determines_row; eauto using range_index_NoDup).
    subst b. simpl in Hma, Hmb. rewrite Hma in Hmb. discriminate.
Qed.

Lemma for_each_st {A} (xs : list A) (f : A -> Element) (w : World) :
  for_each xs (fun x => st (f x)) w = (Ret tt, set_page (page w ++ map f xs) w).
Proof.
  revert w. induction xs as [|x xs IH]; intros w; cbn.
  - rewrite app_nil_r. destruct w; reflexivity.
  - unfold bind, st at 1. rewrite IH. cbn. now rewrite <- app_assoc.
Qed.

Lemma bind_st {B} (e : Element) (k : unit -> M B) (w : World) :
  bind (st e) k w = k tt (set_page (page w ++ [e]) w).
Proof. reflexivity. Qed.

Lemma bind_for_each_st {A B} (xs : list A) (f : A -> Element) (k : unit -> M B) (w : World) :
  bind (for_each xs (fun x => st (f x))) k w = k tt (set_page (page w ++ map f xs) w).
Proof. unfold bind. now rewrite for_each_st. Qed.

Lemma filter_commits_run (repo_manager : Manager) (df_commits : list (nat * CommitRow))
    (w : World) :
  let user_login := User.login (user repo_manager) in
  let user_name := User.name (user repo_manager) in
  let owned_repos := owned_commits user_login user_name df_commits in
  let other_repos := other_commits user_login user_name df_commits in
  exists rest,
    fst (app.filter_commits repo_manager df_commits w) = Ret owned_repos
    /\ page (snd (app.filter_commits repo_manager df_commits w))
       = (page w ++
          [ st_write ("Filtering commits by " +:+ user_login +:+ " (username) and "
                      +:+ fmt user_name +:+ " (full name)");
            st_markdown (app.owned_summary owned_repos);
            st_markdown (app.other_summary other_repos) ] ++ rest)%list.
Proof.
  intros user_login user_name owned_repos other_repos.
  unfold app.filter_commits. fold user_login user_name. fold owned_repos other_repos.
  rewrite !bind_st, bind_for_each_st, bind_st. cbn [page set_page].
  unfold bind. destruct (Nat.eqb (length owned_repos) 0); cbn; eexists;
    (split; [reflexivity|]; rewrite <- !app_assoc; cbn; reflexivity).
Qed.

(** C9. In the Activity view the table of fetched commits is split in two
    by the author test [isin([user_login, user_name])]: the user's commits
    are the rows whose author is the login or the full name, the two parts
    share no row (no index label occurs in both), every row is in one of
    them, and the two counts add up to the number of fetched commits.
    These are the counts the view shows in its two summaries, and the
    user's part is the table it goes on to display. *)
Theorem user_and_other_commits_partition
    (repo_manager : Manager) (all_commits : list CommitRow) (w : World) :
  let user_login := User.login (user repo_manager) in
  let user_name := User.name (user repo_manager) in
  let df_commits := range_index all_commits in
  let owned_repos := owned_commits user_login user_name df_commits in
  let other_repos := other_commits user_login user_name df_commits in
  length owned_repos + length other_repos = length all_commits
  /\ (forall row, row ∈ owned_repos <->
        row ∈ df_commits /\
        (c_author (snd row) = user_login \/ Some (c_author (snd row)) = user_name))
  /\ (forall row, row ∈ df_commits <-> row ∈ owned_repos \/ row ∈ other_repos)
  /\ (forall label, label ∈ map fst owned_repos -> label ∈ map fst other_repos -> False)
  /\ exists rest,
       fst (app.filter_commits repo_manager df_commits w) = Ret owned_repos
       /\ page (snd (app.filter_commits repo_manager df_commits w))
          = (page w ++
             [ st_write ("Filtering commits by " +:+ user_login +:+ " (username) and "
                         +:+ fmt user_name +:+ " (full name)");
               st_markdown (app.owned_summary owned_repos);
               st_markdown (app.other_summary other_repos) ] ++ rest)%list.
Proof.
  intros user_login user_name df_commits owned_repos other_repos.
  destruct (author_test_partitions user_login user_name all_commits) as (H1 & H2 & H3 & H4).
  repeat (split; [assumption|]).
  apply filter_commits_run.
Qed.


(** ** The stats summary *)

Lemma filter_length_decide {A} (f : A -> bool) (P : A -> Prop) `{!forall x, Decision (P x)}
    (l : list A) :
  (forall x, f x = true <-> P x) -> length (List.filter f l) = length (filter P l).
Proof.
  intros Hf. induction l as [|x l IH]; [reflexivity|].
  simpl. rewrite filter_cons. destruct (f x) eqn:E.
  - rewrite decide_True by (apply Hf; exact E). simpl. now rewrite IH.
  - rewrite decide_False; [exact IH|]. intros HP. apply Hf in HP. congruence.
Qed.

Lemma call_served (q : Request) (w : World) :
  hd None (faults w) = None ->
  call q w =
    (fst (serve (clock w) q (remote w)),
     answered q (failure (fst (serve (clock w) q (remote w))))
       (snd (serve (clock w) q (remote w))) w).
Proof.
  intros H. unfold call. destruct (faults w) as [|[[s d]|] rest]; simpl in H; try discriminate;
    destruct (serve (clock w) q (remote w)); reflexivity.
Qed.

Lemma all_repos_served (repo_manager : Manager) (w : World) :
  hd None (faults w) = None ->
  all_repos repo_manager w =
    (Ret (r_repos (remote w)), answered ListRepos None (remote w) w).
Proof.
  intros H. unfold all_repos, call_repos, bind. rewrite (call_served _ _ H). reflexivity.
Qed.

Lemma getitem_repo_stats (login : string) (repos : list Repo.t) (w : World) :
  getitem (repo_stats login repos) "Total Repositories" w = (Ret (length repos), w)
  /\ getitem (repo_stats login repos) ("Owned by " +:+ login) w
     = (Ret (length (List.filter (is_owner login) repos)), w)
  /\ getitem (repo_stats login repos) "Public" w
     = (Ret (length (List.filter (fun r => negb (Repo.private r)) repos)), w)
  /\ getitem (repo_stats login repos) "Private" w
     = (Ret (length (List.filter Repo.private repos)), w)
  /\ getitem (repo_stats login repos) "Forked" w
     = (Ret (length (List.filter Repo.fork repos)), w)
  /\ getitem (repo_stats login repos) "Archived" w
     = (Ret (length (List.filter Repo.archived repos)), w).
Proof.
  unfold repo_stats.
  repeat split; simpl;
    repeat (first [ rewrite bool_decide_eq_true_2 by reflexivity
                  | rewrite bool_decide_eq_false_2 by discriminate ]);
    reflexivity.
Qed.

(** C1. When the platform answers the listing, [get_repo_stats] returns a
    summary with exactly six entries whose values are filtered
    cardinalities of the listed repositories: all of them, those owned by
    the authenticated user, the public ones, the private ones, the forks,
    the archived ones; the dashboard's [metrics] list reads these six
    values under these six keys, and the CLI prints them as six lines. *)
Theorem stats_counts_are_filtered_cardinalities (repo_manager : Manager) (w : World) :
  hd None (faults w) = None ->
  let repos := r_repos (remote w) in
  let login := User.login (user repo_manager) in
  let owned := length (filter (fun r => Repo.owner r = login) repos) in
  let public := length (filter (fun r => Repo.private r = false) repos) in
  let private := length (filter (fun r => Repo.private r = true) repos) in
  let forked := length (filter (fun r => Repo.fork r = true) repos) in
  let archived := length (filter (fun r => Repo.archived r = true) repos) in
  exists stats w',
    get_repo_stats repo_manager w = (Ret stats, w')
    /\ remote w' = remote w
    /\ stats = [ ("Total Repositories", length repos); ("Owned by " +:+ login, owned);
                 ("Public", public); ("Private", private);
                 ("Forked", forked); ("Archived", archived) ]
    /\ getitem stats "Total Repositories" w' = (Ret (length repos), w')
    /\ getitem stats ("Owned by " +:+ login) w' = (Ret owned, w')
    /\ getitem stats "Public" w' = (Ret public, w')
    /\ getitem stats "Private" w' = (Ret private, w')
    /\ getitem stats "Forked" w' = (Ret forked, w')
    /\ getitem stats "Archived" w' = (Ret archived, w')
    /\ app.metrics repo_manager stats w'
       = (Ret [ ("Total Repositories", length repos, "#7C9EFF");
                ("Owned by " +:+ login, owned, "#80DEEA");
                ("Public", public, "#FFD54F"); ("Private", private, "#AED581");
                ("Forked", forked, "#FF8A65"); ("Archived", archived, "#B39DDB") ], w')
    /\ stdout (snd (for_each stats
                      (fun '(key, value) => print (key +:+ ": " +:+ pretty value)) w'))
       = (stdout w' ++
          [ "Total Repositories: " +:+ pretty (length repos);
            "Owned by " +:+ login +:+ ": " +:+ pretty owned;
            "Public: " +:+ pretty public; "Private: " +:+ pretty private;
            "Forked: " +:+ pretty forked; "Archived: " +:+ pretty archived ])%list.
Proof.
  intros Hserved repos login owned public private forked archived.
  assert (Eo : length (List.filter (is_owner login) repos) = owned).
  { apply filter_length_decide. intros r. unfold is_owner. apply bool_decide_eq_true. }
  assert (Epub : length (List.filter (fun r => negb (Repo.private r)) repos) = public).
  { apply filter_length_decide. intros r. apply negb_true_iff. }
  assert (Epriv : length (List.filter Repo.private repos) = private).
  { apply filter_length_decide. intros r. reflexivity. }
  assert (Ef : length (List.filter Repo.fork repos) = forked).
  { apply filter_length_decide. intros r. reflexivity. }
  assert (Ea : length (List.filter Repo.archived repos) = archived).
  { apply filter_length_decide. intros r. reflexivity. }
  eexists _, _. split.
  { unfold get_repo_stats, bind. rewrite (all_repos_served _ _ Hserved). reflexivity. }
  fold repos login. set (w' := answered _ _ _ _).
  destruct (getitem_repo_stats login repos w') as (G1 & G2 & G3 & G4 & G5 & G6).
  rewrite Eo, Epub, Epriv, Ef, Ea in *.
  split; [reflexivity|]. split.
  { unfold repo_stats. now rewrite Eo, Epub, Epriv, Ef, Ea. }
  repeat (split; [assumption|]).
  split.
  - unfold app.metrics, bind. fold login.
    rewrite G1, G2, G3, G4, G5, G6. reflexivity.
  - unfold repo_stats. rewrite Eo, Epub, Epriv, Ef, Ea. cbn.
    rewrite <- !app_assoc. reflexivity.
Qed.

Lemma stats_counts_on_fixture :
  hd None (faults Fixture.world) = None
  /\ exists stats w',
       get_repo_stats Fixture.manager Fixture.world = (Ret stats, w')
       /\ stats = [ ("Total Repositories", 3); ("Owned by alice", 2); ("Public", 2);
                    ("Private", 1); ("Forked", 1); ("Archived", 1) ].
Proof.
  split; [reflexivity|].
  destruct (stats_counts_are_filtered_cardinalities Fixture.manager Fixture.world eq_refl)
    as (stats & w' & Hrun & _ & Hstats & _).
  exists stats, w'. split; [exact Hrun|]. rewrite Hstats. reflexivity.
Defined.

(** ** Recent repositories *)

#[global] Instance updated_after_trans : Transitive updated_after.
Proof. intros a b c. unfold updated_after. lia. Qed.

#[global] Instance updated_after_total : Total updated_after.
Proof. intros a b. unfold updated_after. lia. Qed.

Lemma StronglySorted_lookup {A} (R : relation A) (l : list A) (i j : nat) (a b : A) :
  StronglySorted R l -> i < j -> l !! i = Some a -> l !! j = Some b -> R a b.
Proof.
  intros Hs. revert i j. induction Hs as [|x l Hs IH Hall]; intros i j Hij Ha Hb.
  - rewrite lookup_nil in Ha. discriminate.
  - destruct j as [|j]; [lia|]. destruct i as [|i]; simpl in *.
    + injection Ha as <-. rewrite Forall_forall in Hall. apply Hall.
      eapply list_elem_of_lookup_2. exact Hb.
    + apply (IH i j); [lia|assumption|assumption].
Qed.

(** C5. When the platform answers the listing, [get_recent_repos(n)]
    returns the listed repositories newest first: every repository of the
    result was updated no earlier than each one after it.  The result has
    [n] entries (all of them when fewer are listed), and what is left out
    was updated no later than anything returned. *)
Theorem recent_repos_newest_first (repo_manager : Manager) (n : nat) (w : World) :
  hd None (faults w) = None ->
  exists recent w',
    get_recent_repos repo_manager n w = (Ret recent, w')
    /\ (forall i j a b, i < j -> recent !! i = Some a -> recent !! j = Some b ->
          (Repo.updated_at b <= Repo.updated_at a)%Z)
    /\ length recent = Nat.min n (length (r_repos (remote w)))
    /\ exists rest,
         recent ++ rest ≡ₚ r_repos (remote w)
         /\ forall a b, a ∈ recent -> b ∈ rest -> (Repo.updated_at b <= Repo.updated_at a)%Z.
Proof.
  intros Hserved.
  set (sorted := merge_sort updated_after (r_repos (remote w))).
  assert (Hs : StronglySorted updated_after sorted)
    by (apply StronglySorted_merge_sort; apply _).
  assert (Hp : sorted ≡ₚ r_repos (remote w)) by apply merge_sort_Permutation.
  rewrite <- (take_drop n sorted) in Hs.
  eexists (take n sorted), _. split.
  { unfold get_recent_repos, bind. rewrite (all_repos_served _ _ Hserved). reflexivity. }
  split; [|split].
  - intros i j a b Hij Ha Hb.
    apply StronglySorted_app_1_l in Hs.
    exact (StronglySorted_lookup _ _ _ _ _ _ Hs Hij Ha Hb).
  - rewrite length_take. f_equal. unfold sorted. now rewrite merge_sort_Permutation.
  - exists (drop n sorted). split.
    + now rewrite take_drop.
    + intros a b Ha Hb. exact (StronglySorted_app_1_elem_of _ _ _ _ _ Hs Ha Hb).
Qed.

Lemma recent_repos_on_fixture :
  hd None (faults Fixture.world) = None
  /\ exists recent w',
       get_recent_repos Fixture.manager 2 Fixture.world = (Ret recent, w')
       /\ map Repo.name recent = ["lib"; "demo"]
       /\ map Repo.updated_at recent = [70%Z; 50%Z].
Proof.
  split; [reflexivity|].
  destruct (recent_repos_newest_first Fixture.manager 2 Fixture.world eq_refl)
    as (recent & w' & Hrun & _).
  exists recent, w'. split; [exact Hrun|].
  vm_compute in Hrun. injection Hrun as <- _. split; reflexivity.
Defined.

(** ** Remote calls *)

Lemma call_failed (q : Request) (w : World) (status : nat) (data : string) :
  hd None (faults w) = Some (status, data) ->
  call q w = (Raise (GithubException status data),
              answered q (Some (GithubException status data)) (remote w) w).
Proof.
  intros H. unfold call. destruct (faults w) as [|[[s d]|] rest]; simpl in H; try discriminate.
  injection H as -> ->. reflexivity.
Qed.

Lemma all_repos_run (repo_manager : Manager) (w : World) :
  (hd None (faults w) = None
   /\ all_repos repo_manager w = (Ret (r_repos (remote w)), answered ListRepos None (remote w) w))
  \/ (exists status data,
        hd None (faults w) = Some (status, data)
        /\ all_repos repo_manager w
           = (Raise (GithubException status data),
              answered ListRepos (Some (GithubException status data)) (remote w) w)).
Proof.
  destruct (hd None (faults w)) as [[s d]|] eqn:E.
  - right. exists s, d. split; [reflexivity|].
    unfold all_repos, call_repos, bind. now rewrite (call_failed _ _ _ _ E).
  - left. split; [reflexivity|]. now apply all_repos_served.
Qed.


Lemma serve_raises_api_error (now : Z) (q : Request) (r : Remote) (e : exn) (r' : Remote) :
  serve now q r = (Raise e, r') -> r' = r /\ exists status data, e = GithubException status data.
Proof.
  destruct q; simpl; try discriminate.
  - destruct (existsb _ _); [|discriminate]. intros [= <- <-]. eauto.
  - destruct (existsb _ _); [discriminate|]. intros [= <- <-]. eauto.
Qed.

(** Every remote call is logged once with its outcome; a failed call
    raises that outcome, which is an API error, and changes nothing on the
    platform. *)
Lemma call_run (q : Request) (w : World) :
  exists a r',
    call q w = (a, answered q (failure a) r' w)
    /\ forall e, a = Raise e -> r' = remote w /\ exists status data, e = GithubException status data.
Proof.
  unfold call. destruct (faults w) as [|[[s d]|] rest].
  - destruct (serve (clock w) q (remote w)) as [a r'] eqn:E. exists a, r'. split; [reflexivity|].
    intros e ->. eapply serve_raises_api_error; eauto.
  - eexists _, _. split; [reflexivity|]. intros e [= <-]. eauto.
  - destruct (serve (clock w) q (remote w)) as [a r'] eqn:E. exists a, r'. split; [reflexivity|].
    intros e ->. eapply serve_raises_api_error; eauto.
Qed.

Lemma delete_repo_run (repo_manager : Manager) (name : string) (w : World) :
  (exists r', delete_repo repo_manager name w = (Ret tt, answered (DeleteRepo name) None r' w))
  \/ (exists status data,
        delete_repo repo_manager name w
        = (Raise (GithubException status data),
           answered (DeleteRepo name) (Some (GithubException status data)) (remote w) w)).
Proof.
  unfold delete_repo, bind. destruct (call_run (DeleteRepo name) w) as ([a|e] & r' & -> & He).
  - left. exists r'. reflexivity.
  - right. destruct (He e eq_refl) as (-> & s & d & ->). exists s, d. reflexivity.
Qed.

Lemma admin_names_spec (repos : list Repo.t) (name : string) :
  name ∈ admin_names repos <->
  exists repo, repo ∈ repos /\ Repo.admin repo = true /\ Repo.name repo = name.
Proof.
  unfold admin_names. rewrite list_elem_of_fmap. split.
  - intros (repo & -> & Hin). apply list_elem_of_In, filter_In in Hin as [Hin Ha].
    exists repo. rewrite list_elem_of_In. auto.
  - intros (repo & Hin & Ha & <-). exists repo. split; [reflexivity|].
    apply list_elem_of_In, filter_In. rewrite <- list_elem_of_In. auto.
Qed.

Lemma truthy_Some (s : option string) :
  truthy s = true -> s = Some (the s).
Proof. destruct s; [reflexivity|discriminate]. Qed.

(** What one run of the Delete page does, case by case. *)
Lemma delete_repository_cases (repo_manager : Manager) (ui : Widgets) (w : World) :
  let selected_repo := selectbox (admin_names (r_repos (remote w))) (selectbox_index ui) in
  let w' := snd (app.delete_repository repo_manager ui w) in
  let header := st_header "Delete Repository" in
  let warning := st_warning ("You are about to delete the repository: " +:+ the selected_repo) in
  let notice := st_write "This action cannot be undone. Please type the repository name to confirm." in
  (exists status data,
      hd None (faults w) = Some (status, data)
      /\ requests w' = (requests w ++ [(ListRepos, Some (GithubException status data))])%list
      /\ page w' = (page w ++ [header])%list
      /\ remote w' = remote w
      /\ fst (app.delete_repository repo_manager ui w) = Raise (GithubException status data))
  \/ (hd None (faults w) = None
      /\ fst (app.delete_repository repo_manager ui w) = Ret tt
      /\ ((truthy selected_repo = false
           /\ requests w' = (requests w ++ [(ListRepos, None)])%list
           /\ page w' = (page w ++ [header])%list /\ remote w' = remote w)
          \/ (truthy selected_repo = true /\ delete_button ui = false
              /\ requests w' = (requests w ++ [(ListRepos, None)])%list
              /\ page w' = (page w ++ [header; warning; notice])%list /\ remote w' = remote w)
          \/ (truthy selected_repo = true /\ delete_button ui = true
              /\ confirmation ui <> the selected_repo
              /\ requests w' = (requests w ++ [(ListRepos, None)])%list
              /\ page w' = (page w ++ [header; warning; notice; abort_error])%list
              /\ remote w' = remote w)
          \/ (truthy selected_repo = true /\ delete_button ui = true
              /\ confirmation ui = the selected_repo
              /\ ((requests w' = (requests w ++ [(ListRepos, None);
                                                 (DeleteRepo (the selected_repo), None)])%list
                   /\ page w' = (page w ++ [header; warning; notice;
                                  st_success ("Repository " +:+ the selected_repo
                                              +:+ " has been deleted successfully.")])%list)
                  \/ (exists status data,
                        requests w' = (requests w ++ [(ListRepos, None);
                                         (DeleteRepo (the selected_repo),
                                          Some (GithubException status data))])%list
                        /\ page w' = (page w ++ [header; warning; notice;
                                       st_error ("An error occurred while deleting the repository: "
                                                 +:+ str (GithubException status data))])%list
                        /\ remote w' = remote w))))).
Proof.
  intros selected_repo w' header warning notice. subst w'.
  destruct (app.delete_repository repo_manager ui w) as [r w'] eqn:E.
  unfold app.delete_repository in E. unfold bind at 1 in E. unfold st at 1 in E.
  unfold bind at 1 in E.
  set (w1 := set_page _ w) in E.
  destruct (all_repos_run repo_manager w1) as [[Hf Hl]|(s & d & Hf & Hl)]; rewrite Hl in E.
  2:{ left. exists s, d. injection E as <- <-. cbn. auto. }
  right. split; [exact Hf|].
  change (r_repos (remote w1)) with (r_repos (remote w)) in E.
  fold selected_repo in E. fold warning in E.
  destruct (truthy selected_repo) eqn:Ht.
  2:{ injection E as <- <-. cbn. auto 10. }
  unfold bind at 1 in E. unfold st at 1 in E.
  unfold bind at 1 in E. unfold st at 1 in E.
  destruct (delete_button ui) eqn:Hb.
  2:{ injection E as <- <-. cbn. split; [reflexivity|]. right. left.
      rewrite <- !app_assoc. auto 10. }
  destruct (String.eqb_spec (confirmation ui) (the selected_repo)) as [Heq|Hne].
  - unfold try_except_github, bind in E.
    match type of E with context [delete_repo ?m ?n ?x] =>
      destruct (delete_repo_run m n x) as [(r' & Hd)|(s & d & Hd)]; rewrite Hd in E end.
    + injection E as <- <-. cbn. split; [reflexivity|]. do 3 right. rewrite <- !app_assoc. auto 10.
    + injection E as <- <-. cbn. split; [reflexivity|]. do 3 right. rewrite <- !app_assoc.
      repeat (split; [auto|]). right. exists s, d. auto.
  - injection E as <- <-. cbn. split; [reflexivity|]. right. right. left.
    rewrite <- !app_assoc. auto 10.
Qed.

(** ** The Delete page *)

(** C8 as stated fails: with the repository "demo" selected and the
    confirmation "dem" typed, but the button "Delete Repository" not
    pressed, the page shows no abort error (nothing is deleted either). *)
Lemma abort_error_waits_for_the_button :
  let ui := Fixture.delete_widgets "dem" false in
  let w' := snd (app.delete_repository Fixture.manager ui Fixture.world) in
  selectbox (admin_names (r_repos (remote Fixture.world))) (selectbox_index ui) = Some "demo"
  /\ confirmation ui = "dem"
  /\ page w' = [ st_header "Delete Repository";
                 st_warning "You are about to delete the repository: demo";
                 st_write "This action cannot be undone. Please type the repository name to confirm." ]
  /\ bool_decide (abort_error ∈ page w') = false
  /\ requests w' = [(ListRepos, None)].
Proof. vm_compute. repeat split. Qed.

(** C8, amended.  On the Delete page the names offered are exactly those of
    the listed repositories with the admin flag, and the selection is one
    of them; [delete_repo] is called only when the button is pressed and
    the typed confirmation equals the selected name; whenever the
    confirmation differs, the only remote call is the listing and the
    platform is left as it was; and when a repository is selected and the
    button is pressed with a differing confirmation, the abort error is
    shown. *)
Theorem delete_only_on_matching_confirmation
    (repo_manager : Manager) (ui : Widgets) (w : World) :
  let repos := r_repos (remote w) in
  let repo_names := admin_names repos in
  let selected_repo := selectbox repo_names (selectbox_index ui) in
  let w' := snd (app.delete_repository repo_manager ui w) in
  (forall name, name ∈ repo_names <->
     exists repo, repo ∈ repos /\ Repo.admin repo = true /\ Repo.name repo = name)
  /\ (forall name, selected_repo = Some name -> name ∈ repo_names)
  /\ (forall name outcome,
        (DeleteRepo name, outcome) ∈ requests w' ->
        (DeleteRepo name, outcome) ∈ requests w
        \/ (delete_button ui = true /\ selected_repo = Some name /\ confirmation ui = name))
  /\ (selected_repo <> Some (confirmation ui) ->
        remote w' = remote w
        /\ exists outcome, requests w' = (requests w ++ [(ListRepos, outcome)])%list)
  /\ (hd None (faults w) = None -> truthy selected_repo = true -> delete_button ui = true ->
      selected_repo <> Some (confirmation ui) ->
        page w' = (page w ++
                   [ st_header "Delete Repository";
                     st_warning ("You are about to delete the repository: " +:+ the selected_repo);
                     st_write "This action cannot be undone. Please type the repository name to confirm.";
                     abort_error ])%list).
Proof.
  intros repos repo_names selected_repo w'.
  split; [apply admin_names_spec|].
  split; [intros name Hsel; eapply list_elem_of_lookup_2; exact Hsel|].
  pose proof (delete_repository_cases repo_manager ui w) as Hcases.
  cbv zeta in Hcases. fold repos repo_names selected_repo w' in Hcases.
  assert (Hlist : forall name outcome o,
             (DeleteRepo name, outcome) ∈ (requests w ++ [(ListRepos, o)])%list ->
             (DeleteRepo name, outcome) ∈ requests w).
  { intros name outcome o Hin. apply elem_of_app in Hin as [Hin|Hin]; [exact Hin|].
    apply list_elem_of_singleton in Hin. discriminate. }
  destruct Hcases as [(s & d & Hf & Hq & Hp & Hr & _)
                     |(Hf & _ & [(Ht & Hq & Hp & Hr)
                               |[(Ht & Hb & Hq & Hp & Hr)
                               |[(Ht & Hb & Hne & Hq & Hp & Hr)
                               |(Ht & Hb & Heq & Hdel)]]])].
  - split; [|split].
    + intros name outcome Hin. rewrite Hq in Hin. left. eauto.
    + intros _. split; [exact Hr|]. eauto.
    + intros Hf'. congruence.
  - split; [|split].
    + intros name outcome Hin. rewrite Hq in Hin. left. eauto.
    + intros _. split; [exact Hr|]. eauto.
    + intros _ Ht'. congruence.
  - split; [|split].
    + intros name outcome Hin. rewrite Hq in Hin. left. eauto.
    + intros _. split; [exact Hr|]. eauto.
    + intros _ _ Hb'. congruence.
  - split; [|split].
    + intros name outcome Hin. rewrite Hq in Hin. left. eauto.
    + intros _. split; [exact Hr|]. eauto.
    + intros _ _ _ _. exact Hp.
  - apply truthy_Some in Ht as Hsel.
    assert (Hmatch : selected_repo = Some (confirmation ui)) by (rewrite Heq; exact Hsel).
    split; [|split].
    + intros name outcome Hin.
      destruct Hdel as [[Hq _]|(s & d & Hq & _)]; rewrite Hq in Hin;
        (apply elem_of_app in Hin as [Hin|Hin]; [left; exact Hin|]);
        (apply elem_of_cons in Hin as [Hin|Hin]; [discriminate|]);
        apply list_elem_of_singleton in Hin; injection Hin as -> _;
        right; rewrite Heq; auto.
    + intros Hne. contradiction.
    + intros _ _ _ Hne. contradiction.
Qed.

Lemma delete_guard_on_fixture :
  let ui := Fixture.delete_widgets "dem" true in
  let w' := snd (app.delete_repository Fixture.manager ui Fixture.world) in
  page w' = [ st_header "Delete Repository";
              st_warning "You are about to delete the repository: demo";
              st_write "This action cannot be undone. Please type the repository name to confirm.";
              abort_error ]
  /\ remote w' = remote Fixture.world.
Proof.
  destruct (delete_only_on_matching_confirmation Fixture.manager
              (Fixture.delete_widgets "dem" true) Fixture.world)
    as (_ & _ & _ & Hsame & Habort).
  split.
  - apply Habort; [reflexivity|reflexivity|reflexivity|discriminate].
  - apply Hsame. discriminate.
Defined.


(** ** The access token *)

(** C6 as stated fails: with [GITHUB_TOKEN] already set in the process
    environment, [load_dotenv] does not override it, and both loaders
    return the exported value, not the one [token.env] holds. *)
Lemma exported_token_shadows_token_env :
  let w := Fixture.world_with_exported_token in
  (token_env w ≫= lookup "GITHUB_TOKEN") = Some "ghp_file"
  /\ fst (cli.load_token_from_env w) = Ret (Some "ghp_shell")
  /\ fst (app.load_token_from_env w) = Ret (Some "ghp_shell").
Proof. vm_compute. repeat split. Qed.

Lemma load_token_from_env_run (w : World) :
  app.load_token_from_env w = cli.load_token_from_env w
  /\ match token_env w with
     | Some file =>
         cli.load_token_from_env w
         = (Ret (match environ w !! "GITHUB_TOKEN" with
                 | Some exported => Some exported
                 | None => file !! "GITHUB_TOKEN"
                 end),
            set_environ (environ w ∪ file) w)
     | None => cli.load_token_from_env w = (Ret None, w)
     end.
Proof.
  split; [reflexivity|].
  unfold cli.load_token_from_env. destruct (token_env w) as [file|]; [|reflexivity].
  unfold bind, load_dotenv, getenv. cbn. f_equal. f_equal.
  rewrite lookup_union. destruct (environ w !! "GITHUB_TOKEN"), (file !! "GITHUB_TOKEN"); reflexivity.
Qed.

(** Loading the token reads [token.env] and the process environment and
    touches nothing but the latter. *)
Lemma load_token_from_env_frame (w : World) :
  exists token environ',
    forall w2, token_env w2 = token_env w -> environ w2 = environ w ->
      cli.load_token_from_env w2 = (Ret token, set_environ environ' w2).
Proof.
  destruct (token_env w) as [file|] eqn:E.
  - exists ((environ w ∪ file) !! "GITHUB_TOKEN"), (environ w ∪ file). intros w2 Ht He.
    unfold cli.load_token_from_env. rewrite Ht. unfold bind, load_dotenv, getenv. cbn.
    now rewrite He.
  - exists None, (environ w). intros w2 Ht He.
    unfold cli.load_token_from_env. rewrite Ht. rewrite <- He. destruct w2; reflexivity.
Qed.

(** C6, amended.  The two loaders are the same function.  When [token.env]
    exists they return the value of [GITHUB_TOKEN] in the process
    environment after the file was loaded without overriding: the value
    already exported if there is one, otherwise the file's (so the file's
    value whenever the variable was not already set); when the file does
    not exist they return [None].  When the value is falsy, the CLI prints
    its token-setup error and returns with status 0, and the dashboard
    shows its token-setup error and stops: neither constructs the manager
    or makes any remote call. *)
Theorem token_loading_and_missing_token (w : World) :
  app.load_token_from_env w = cli.load_token_from_env w
  /\ (forall file, token_env w = Some file ->
        fst (cli.load_token_from_env w)
        = Ret (match environ w !! "GITHUB_TOKEN" with
               | Some exported => Some exported
               | None => file !! "GITHUB_TOKEN"
               end))
  /\ (forall file, token_env w = Some file -> environ w !! "GITHUB_TOKEN" = None ->
        fst (cli.load_token_from_env w) = Ret (file !! "GITHUB_TOKEN"))
  /\ (token_env w = None -> cli.load_token_from_env w = (Ret None, w))
  /\ (forall token, fst (cli.load_token_from_env w) = Ret token -> truthy token = false ->
        (forall inv,
            fst (cli.run inv w) = 0
            /\ stdout (snd (cli.run inv w)) = (stdout w ++ [cli_token_error])%list
            /\ stderr (snd (cli.run inv w)) = stderr w
            /\ requests (snd (cli.run inv w)) = requests w
            /\ remote (snd (cli.run inv w)) = remote w
            /\ written (snd (cli.run inv w)) = written w)
        /\ (forall strftime ui,
              page (app.run strftime ui w)
              = (page w ++
                 [ st_markdown "<style>"; st_error app_token_error;
                   st_info "See the 'Need help?' section above for instructions on how to create and set up your GitHub token." ])%list
              /\ requests (app.run strftime ui w) = requests w
              /\ remote (app.run strftime ui w) = remote w
              /\ written (app.run strftime ui w) = written w)).
Proof.
  destruct (load_token_from_env_run w) as [Hsame Hrun].
  split; [exact Hsame|].
  split; [intros file Hfile; rewrite Hfile in Hrun; now rewrite Hrun|].
  split; [intros file Hfile Hunset; rewrite Hfile in Hrun; rewrite Hrun; cbn; now rewrite Hunset|].
  split; [intros Hnone; now rewrite Hnone in Hrun|].
  intros token Htoken Hfalsy.
  destruct (load_token_from_env_frame w) as (token' & environ' & Hload).
  rewrite (Hload w eq_refl eq_refl) in Htoken. cbn in Htoken. injection Htoken as ->.
  split.
  - intros inv. unfold cli.run, cli.main, bind.
    rewrite (Hload w eq_refl eq_refl), Hfalsy. cbn. auto 10.
  - intros strftime ui. unfold app.run.
    destruct (app.main strftime ui w) as [r w'] eqn:E.
    unfold app.main, app.initialize_repo_manager in E.
    unfold bind at 1 in E. unfold st at 1 in E. unfold bind at 1 2 in E.
    set (w1 := set_page _ w) in E.
    change app.load_token_from_env with cli.load_token_from_env in E.
    rewrite (Hload w1 eq_refl eq_refl), Hfalsy in E. cbn in E.
    injection E as <- <-. cbn. rewrite <- !app_assoc. auto.
Qed.

Lemma missing_token_on_fixture :
  let w := Fixture.world_without_token in
  cli.load_token_from_env w = (Ret None, w)
  /\ cli.run (Fixture.command ["stats"] None None None None) w
     = (0, set_stdout [cli_token_error] w).
Proof.
  destruct (token_loading_and_missing_token Fixture.world_without_token)
    as (_ & _ & _ & Hnone & Hfalsy).
  split; [exact (Hnone eq_refl)|]. reflexivity.
Defined.

(** ** The command line *)

Ltac list_member := repeat first [apply list_elem_of_here | apply list_elem_of_further].

Lemma check_choice_cases (argument : string) (choices : list string) (value : option string)
    (w : World) :
  (cli.check_choice argument choices value w = (Ret tt, w)
   /\ forall v, value = Some v -> v ∈ choices)
  \/ (exists message,
        cli.check_choice argument choices value w
        = (Raise (SystemExit 2), set_stderr (stderr w ++ [Usage message]) w)
        /\ exists v, value = Some v /\ v ∉ choices).
Proof.
  unfold cli.check_choice. destruct value as [v|].
  - destruct (bool_decide_reflect (v ∈ choices)) as [Hin|Hout].
    + left. split; [reflexivity|]. intros ? [= <-]. exact Hin.
    + right. eexists. split; [reflexivity|]. eauto.
  - left. split; [reflexivity|]. discriminate.
Qed.

(** [parse_args] either ends in a usage error, leaving only the usage
    message behind, or returns the namespace of a well-formed command line
    and touches nothing. *)
Lemma parse_args_cases (inv : Invocation) (w : World) :
  (exists message,
      cli.parse_args inv w = (Raise (SystemExit 2), set_stderr (stderr w ++ [Usage message]) w))
  \/ (exists a,
        positionals inv = [a] /\ a ∈ cli.action_choices
        /\ cli.parse_args inv w
           = (Ret (Namespace.mk a (given_name inv) (given_description inv) (given_private inv)
                     (given_format inv) (given_output inv) (given_type inv)), w)).
Proof.
  unfold cli.parse_args. destruct (positionals inv) as [|a extra].
  { left. eexists. reflexivity. }
  unfold bind.
  destruct (check_choice_cases "action" cli.action_choices (Some a) w)
    as [[-> Ha]|(m & -> & _)]; [|left; eauto].
  destruct (check_choice_cases "--format" cli.format_choices (given_format inv) w)
    as [[-> _]|(m & -> & _)]; [|left; eauto].
  destruct (check_choice_cases "--type" cli.type_choices (given_type inv) w)
    as [[-> _]|(m & -> & _)]; [|left; eauto].
  destruct extra as [|b extra]; [|left; eexists; reflexivity].
  destruct (unrecognized inv) as [|u rest]; [|left; eexists; reflexivity].
  right. exists a. auto.
Qed.


Lemma GithubRepoManager_run (token : string) (w : World) :
  GithubRepoManager token w
  = (Ret (mkManager token (r_user (remote w))), answered GetUser None (remote w) w)
  \/ exists status data,
       GithubRepoManager token w
       = (Raise (GithubException status data),
          answered GetUser (Some (GithubException status data)) (remote w) w).
Proof.
  unfold GithubRepoManager, call_user, bind, call.
  destruct (faults w) as [|[[s d]|] rest]; cbn; eauto.
Qed.




(** ** What a run leaves untouched *)

Section Keeps.

Context (R : relation World) `{!PreOrder R}.

Lemma keeps_ret {A} (a : A) : keeps R (ret a).
Proof. intros w. reflexivity. Qed.

Lemma keeps_raise {A} (e : exn) : keeps R (@raise A e).
Proof. intros w. reflexivity. Qed.

Lemma keeps_bind {A B} (c : M A) (k : A -> M B) :
  keeps R c -> (forall a, keeps R (k a)) -> keeps R (bind c k).
Proof.
  intros Hc Hk w. unfold bind. specialize (Hc w).
  destruct (c w) as [[a|e] w1]; cbn in *; [|exact Hc].
  etransitivity; [exact Hc|apply Hk].
Qed.

Lemma keeps_for_each {A} (xs : list A) (body : A -> M unit) :
  (forall x, keeps R (body x)) -> keeps R (for_each xs body).
Proof.
  intros Hb. induction xs as [|x xs IH]; cbn.
  - apply keeps_ret.
  - apply keeps_bind; auto.
Qed.

Lemma keeps_try_except_github {A} (c : M A) (h : exn -> M A) :
  keeps R c -> (forall e, keeps R (h e)) -> keeps R (try_except_github c h).
Proof.
  intros Hc Hh w. unfold try_except_github. specialize (Hc w).
  destruct (c w) as [[a|[]] w1]; cbn in *; try exact Hc.
  etransitivity; [exact Hc|apply Hh].
Qed.

Lemma keeps_try_except_exception {A} (c : M A) (h : exn -> M A) :
  keeps R c -> (forall e, keeps R (h e)) -> keeps R (try_except_exception c h).
Proof.
  intros Hc Hh w. unfold try_except_exception. specialize (Hc w).
  destruct (c w) as [[a|[]] w1]; cbn in *; try exact Hc;
    (etransitivity; [exact Hc|apply Hh]).
Qed.

End Keeps.

#[global] Instance frame_preorder (P : string -> Prop) : PreOrder (frame P).
Proof.
  split.
  - intros w. split; [reflexivity|]. split; exists []; rewrite app_nil_r; auto.
  - intros w1 w2 w3 (Hr1 & (c1 & Hc1 & Hf1) & (f1 & Hw1 & Hp1))
                    (Hr2 & (c2 & Hc2 & Hf2) & (f2 & Hw2 & Hp2)).
    split; [congruence|]. split.
    + exists (c1 ++ c2)%list. rewrite Hc2, Hc1, app_assoc. split; [reflexivity|].
      apply Forall_app; auto.
    + exists (f1 ++ f2)%list. rewrite Hw2, Hw1, app_assoc. split; [reflexivity|].
      apply Forall_app; auto.
Qed.

(** A step that changes neither the platform, nor the call log, nor the
    files. *)
Lemma frame_same (P : string -> Prop) (w w' : World) :
  remote w' = remote w -> requests w' = requests w -> written w' = written w -> frame P w w'.
Proof.
  intros Hr Hq Hw. split; [exact Hr|].
  split; exists []; rewrite app_nil_r; auto.
Qed.

Section Frame.

Context (P : string -> Prop).

Lemma serve_read (now : Z) (q : Request) (r : Remote) :
  is_read q = true -> snd (serve now q r) = r.
Proof. destruct q; cbn; intros; try reflexivity; discriminate. Qed.

Lemma keeps_call (q : Request) : is_read q = true -> keeps (frame P) (call q).
Proof.
  intros Hq w. unfold call.
  assert (Hs := serve_read (clock w) q (remote w) Hq).
  destruct (serve (clock w) q (remote w)) as [a r']. cbn in Hs. subst r'.
  destruct (faults w) as [|[[s d]|] rest]; cbn;
    (split; [reflexivity|]; split;
     [eexists; split; [reflexivity|]; repeat constructor; exact Hq
     |exists []; rewrite app_nil_r; auto]).
Qed.

Lemma keeps_st (e : Element) : keeps (frame P) (st e).
Proof. intros w. apply frame_same; reflexivity. Qed.

Lemma keeps_print (s : string) : keeps (frame P) (print s).
Proof. intros w. apply frame_same; reflexivity. Qed.

Lemma keeps_write_file (path : string) (data : FileData) :
  P path -> keeps (frame P) (write_file path data).
Proof.
  intros Hp w. split; [reflexivity|]. split.
  - exists []. rewrite app_nil_r. auto.
  - eexists. split; [reflexivity|]. repeat constructor. exact Hp.
Qed.

Lemma keeps_getitem {V} (d : dict V) (key : string) : keeps (frame P) (getitem d key).
Proof.
  intros w. induction d as [|[k v] d IH]; cbn; [reflexivity|].
  destruct (bool_decide (k = key)); [reflexivity|exact IH].
Qed.

End Frame.

Ltac frame_auto :=
  repeat first
    [ progress intros
    | apply keeps_ret
    | apply keeps_raise
    | apply keeps_st
    | apply keeps_print
    | apply keeps_getitem
    | apply keeps_call; reflexivity
    | apply keeps_bind
    | apply keeps_for_each
    | apply keeps_try_except_github
    | apply keeps_try_except_exception
    | apply frame_preorder
    | match goal with
      | |- keeps _ (if ?b then _ else _) => destruct b eqn:?
      | |- keeps _ (match ?x with _ => _ end) => destruct x eqn:?
      | |- keeps _ (let '(_, _) := ?x in _) => destruct x eqn:?
      end ].

Section Operations.

Context (P : string -> Prop).

Lemma keeps_all_repos (m : Manager) : keeps (frame P) (all_repos m).
Proof. unfold all_repos, call_repos. frame_auto. Qed.

Lemma keeps_GithubRepoManager (token : string) : keeps (frame P) (GithubRepoManager token).
Proof. unfold GithubRepoManager, call_user. frame_auto. Qed.

Lemma keeps_get_repo_stats (m : Manager) : keeps (frame P) (get_repo_stats m).
Proof. unfold get_repo_stats. pose proof keeps_all_repos. frame_auto. Qed.

Lemma keeps_get_recent_repos (m : Manager) (n : nat) : keeps (frame P) (get_recent_repos m n).
Proof. unfold get_recent_repos. pose proof keeps_all_repos. frame_auto. Qed.

Lemma keeps_get_repo_commits (m : Manager) (repo : Repo.t) :
  keeps (frame P) (get_repo_commits m repo).
Proof. unfold get_repo_commits, call_commits. frame_auto. Qed.

Lemma keeps_get_repos_dataframe (m : Manager) : keeps (frame P) (get_repos_dataframe m).
Proof. unfold get_repos_dataframe. pose proof keeps_all_repos. frame_auto. Qed.

Lemma keeps_get_starred_repos (m : Manager) : keeps (frame P) (get_starred_repos m).
Proof. unfold get_starred_repos, call_repos. frame_auto. Qed.

Lemma keeps_load_token_from_env : keeps (frame P) cli.load_token_from_env.
Proof.
  intros w. destruct (load_token_from_env_frame w) as (token & environ' & H).
  rewrite (H w eq_refl eq_refl). apply frame_same; reflexivity.
Qed.

Lemma keeps_parse_args (inv : Invocation) : keeps (frame P) (cli.parse_args inv).
Proof.
  intros w. destruct (parse_args_cases inv w) as [(m & ->)|(a & _ & _ & ->)];
    apply frame_same; reflexivity.
Qed.

Lemma keeps_export_data (m : Manager) (format output : string) :
  P output -> keeps (frame P) (cli.export_data m format output).
Proof.
  intros Hp. unfold cli.export_data. pose proof keeps_get_repos_dataframe.
  frame_auto; apply keeps_write_file; exact Hp.
Qed.

Lemma keeps_export_stars (m : Manager) (format output : string) :
  P output -> keeps (frame P) (cli.export_stars m format output).
Proof.
  intros Hp. unfold cli.export_stars. pose proof keeps_get_starred_repos.
  frame_auto; apply keeps_write_file; exact Hp.
Qed.

Lemma keeps_visualize (m : Manager) (type output : string) :
  P output -> keeps (frame P) (cli.visualize m type output).
Proof.
  intros Hp. unfold cli.visualize. pose proof keeps_get_repos_dataframe.
  frame_auto; apply keeps_write_file; exact Hp.
Qed.

End Operations.

Lemma truthy_or_the (a b : option string) :
  negb (truthy a) || negb (truthy b) = false -> a = Some (the a) /\ b = Some (the b).
Proof.
  intros H. apply orb_false_iff in H as [Ha Hb].
  apply negb_false_iff in Ha, Hb. split; apply truthy_Some; assumption.
Qed.

(** [cli.main] on any action word but create and delete. *)
Lemma keeps_cli_main (P : string -> Prop) (inv : Invocation) :
  hd "" (positionals inv) <> "create" -> hd "" (positionals inv) <> "delete" ->
  (hd "" (positionals inv) ∈ ["export"; "stars"; "visualize"] ->
   forall path, given_output inv = Some path -> P path) ->
  keeps (frame P) (cli.main inv).
Proof.
  intros Hc Hd HP w. destruct (cli.main inv w) as [r w'] eqn:E. cbn.
  unfold cli.main in E. unfold bind at 1 in E.
  destruct (load_token_from_env_frame w) as (token & environ' & Hload).
  rewrite (Hload w eq_refl eq_refl) in E.
  set (w1 := set_environ environ' w) in E.
  assert (H1 : frame P w w1) by (apply frame_same; reflexivity).
  destruct (negb (truthy token)).
  { injection E as <- <-. apply frame_same; reflexivity. }
  unfold bind at 1 in E.
  destruct (parse_args_cases inv w1) as [(m & Hp)|(a & Hpos & Ha & Hp)]; rewrite Hp in E.
  { injection E as <- <-. apply frame_same; reflexivity. }
  rewrite Hpos in Hc, Hd, HP. cbn in Hc, Hd, HP.
  etransitivity; [exact H1|].
  match type of E with ?c w1 = _ => assert (Hk : keeps (frame P) c) end.
  2:{ specialize (Hk w1). rewrite E in Hk. exact Hk. }
  cbn [Namespace.action Namespace.name Namespace.format Namespace.output Namespace.type].
  apply keeps_bind; [apply _|apply keeps_GithubRepoManager|]. intros repo_manager.
  repeat match goal with
  | |- keeps _ (if String.eqb a ?s then _ else _) =>
      destruct (String.eqb_spec a s); [subst a|]
  end; try contradiction.
  - pose proof keeps_get_repo_stats. frame_auto.
  - pose proof keeps_all_repos. frame_auto.
  - destruct (negb (truthy (given_format inv)) || negb (truthy (given_output inv))) eqn:Ho.
    + apply keeps_print.
    + apply keeps_export_data. apply truthy_or_the in Ho as [_ Ho].
      apply HP; [|exact Ho]. list_member.
  - destruct (negb (truthy (given_format inv)) || negb (truthy (given_output inv))) eqn:Ho.
    + apply keeps_print.
    + apply keeps_export_stars. apply truthy_or_the in Ho as [_ Ho].
      apply HP; [|exact Ho]. list_member.
  - destruct (negb (truthy (given_type inv)) || negb (truthy (given_output inv))) eqn:Ho.
    + apply keeps_print.
    + apply keeps_visualize. apply truthy_or_the in Ho as [_ Ho].
      apply HP; [|exact Ho]. list_member.
  - apply keeps_ret. apply _.
Qed.

Lemma keeps_cli_run (P : string -> Prop) (inv : Invocation) (w : World) :
  keeps (frame P) (cli.main inv) -> frame P w (snd (cli.run inv w)).
Proof.
  intros Hk. specialize (Hk w). unfold cli.run.
  destruct (cli.main inv w) as [[[]|[]] w']; cbn in *; try exact Hk;
    (etransitivity; [exact Hk|apply frame_same; reflexivity]).
Qed.

Section Pages.

Context (P : string -> Prop) (strftime : string -> Z -> string).

Lemma keeps_export_to_csv (data : DataFrame) (filename : string) :
  keeps (frame P) (app.export_to_csv strftime data filename).
Proof. intros w. apply frame_same; reflexivity. Qed.

Lemma keeps_collect_commits (m : Manager) (repos : list Repo.t) (all_commits : list CommitRow) :
  keeps (frame P) (app.collect_commits m repos all_commits).
Proof.
  revert all_commits. induction repos as [|repo repos IH]; intros all_commits; cbn.
  - apply keeps_ret. apply _.
  - apply keeps_bind; [apply _|apply keeps_get_repo_commits|]. intros commits. apply IH.
Qed.

Lemma keeps_get_all_commits (m : Manager) (repos : list Repo.t) :
  keeps (frame P) (app.get_all_commits m repos).
Proof.
  unfold app.get_all_commits.
  apply keeps_bind; [apply _|apply keeps_collect_commits|]. intros all_commits.
  apply keeps_ret. apply _.
Qed.

Lemma keeps_create_summary (m : Manager) (stats : dict nat) :
  keeps (frame P) (app.create_summary m stats).
Proof. unfold app.create_summary. frame_auto. Qed.

Lemma keeps_metrics (m : Manager) (stats : dict nat) : keeps (frame P) (app.metrics m stats).
Proof. unfold app.metrics. frame_auto. Qed.

Lemma keeps_show_metrics (i : nat) (ms : list (string * nat * string)) :
  keeps (frame P) (app.show_metrics i ms).
Proof.
  revert i. induction ms as [|[[key value] color] ms IH]; intros i; cbn.
  - apply keeps_ret. apply _.
  - frame_auto. apply IH.
Qed.

Lemma keeps_stats_page (m : Manager) : keeps (frame P) (app.stats_page m).
Proof.
  unfold app.stats_page.
  apply keeps_bind; [apply _|apply keeps_st|]. intros _.
  apply keeps_bind; [apply _|apply keeps_get_repo_stats|]. intros stats.
  apply keeps_bind; [apply _|apply keeps_create_summary|]. intros summary.
  apply keeps_bind; [apply _|apply keeps_st|]. intros _.
  apply keeps_bind; [apply _|apply keeps_metrics|]. intros ms.
  apply keeps_show_metrics.
Qed.

Lemma keeps_list_recent (m : Manager) (ui : Widgets) (i : nat) (repos : list Repo.t)
    (all_commits : list CommitRow) :
  keeps (frame P) (app.list_recent strftime m ui i repos all_commits).
Proof.
  revert i all_commits. induction repos as [|repo repos IH]; intros i all_commits; cbn.
  - apply keeps_ret. apply _.
  - apply keeps_bind; [apply _|apply keeps_st|]. intros _.
    apply keeps_bind; [apply _|apply keeps_get_repo_commits|]. intros commits.
    destruct commits as [|commit commits].
    + apply keeps_bind; [apply _|apply keeps_st|]. intros _. apply IH.
    + destruct (show_all_commits ui); [apply IH|].
      apply keeps_bind; [apply _| |intros _; apply IH].
      apply keeps_for_each; [apply _|]. intros c. apply keeps_st.
Qed.

Lemma keeps_filter_commits (m : Manager) (df_commits : list (nat * CommitRow)) :
  keeps (frame P) (app.filter_commits m df_commits).
Proof. unfold app.filter_commits. frame_auto. Qed.

Lemma keeps_activity_page (m : Manager) (ui : Widgets) :
  keeps (frame P) (app.activity_page strftime m ui).
Proof.
  unfold app.activity_page.
  apply keeps_bind; [apply _|apply keeps_st|]. intros _.
  apply keeps_bind; [apply _|apply keeps_st|]. intros _.
  apply keeps_bind; [apply _|apply keeps_get_recent_repos|]. intros recent_repos.
  apply keeps_bind; [apply _|apply keeps_list_recent|]. intros all_commits.
  apply keeps_bind; [apply _| |intros _].
  { destruct (show_all_commits ui && _).
    - apply keeps_bind; [apply _|apply keeps_st|]. intros _.
      apply keeps_bind; [apply _| |intros df; apply keeps_st].
      destruct (filter_user_commits ui); [apply keeps_filter_commits|apply keeps_ret; apply _].
    - destruct (show_all_commits ui); [apply keeps_st|apply keeps_ret; apply _]. }
  apply keeps_bind; [apply _|apply keeps_st|]. intros _.
  apply keeps_bind; [apply _| |intros _].
  { destruct (prepare_export ui); [|apply keeps_ret; apply _].
    apply keeps_bind; [apply _|apply keeps_get_all_commits|]. intros df.
    apply keeps_bind; [apply _|apply keeps_st|]. intros _. apply keeps_export_to_csv. }
  destruct (map _ recent_repos); [apply keeps_raise; apply _|apply keeps_st].
Qed.

Lemma keeps_data_page (m : Manager) (ui : Widgets) :
  keeps (frame P) (app.data_page strftime m ui).
Proof.
  unfold app.data_page.
  apply keeps_bind; [apply _|apply keeps_st|]. intros _.
  apply keeps_bind; [apply _|apply keeps_get_repos_dataframe|]. intros df.
  apply keeps_bind; [apply _| |intros _].
  { destruct (format_owned ui); [apply keeps_st|apply keeps_ret; apply _]. }
  apply keeps_bind; [apply _|apply keeps_st|]. intros _. apply keeps_export_to_csv.
Qed.

Lemma keeps_visualize_page (m : Manager) : keeps (frame P) (app.visualize_page m).
Proof.
  unfold app.visualize_page.
  apply keeps_bind; [apply _|apply keeps_st|]. intros _.
  apply keeps_bind; [apply _|apply keeps_st|]. intros _.
  apply keeps_bind; [apply _|apply keeps_get_repos_dataframe|]. intros df.
  frame_auto.
Qed.

Lemma keeps_stars_page (m : Manager) : keeps (frame P) (app.stars_page strftime m).
Proof.
  unfold app.stars_page.
  apply keeps_bind; [apply _|apply keeps_st|]. intros _.
  apply keeps_bind; [apply _|apply keeps_st|]. intros _.
  apply keeps_bind; [apply _|apply keeps_get_starred_repos|]. intros df.
  repeat (apply keeps_bind; [apply _|apply keeps_st|]; intros _).
  apply keeps_export_to_csv.
Qed.

Lemma keeps_initialize_repo_manager : keeps (frame P) app.initialize_repo_manager.
Proof.
  unfold app.initialize_repo_manager.
  apply keeps_bind; [apply _|apply keeps_load_token_from_env|]. intros token.
  destruct (negb (truthy token)); [apply keeps_ret; apply _|].
  apply keeps_try_except_exception; [apply _| |intros e; apply keeps_ret; apply _].
  apply keeps_bind; [apply _|apply keeps_GithubRepoManager|]. intros m. apply keeps_ret. apply _.
Qed.

(** The dashboard on any page but Create and Delete. *)
Lemma keeps_app_main (ui : Widgets) :
  selected ui <> "Create 🆕" -> selected ui <> "Delete 🗑️" ->
  keeps (frame P) (app.main strftime ui).
Proof.
  intros Hc Hd. unfold app.main.
  apply keeps_bind; [apply _|apply keeps_st|]. intros _.
  apply keeps_bind; [apply _|apply keeps_initialize_repo_manager|]. intros [repo_manager error].
  destruct (truthy error).
  { apply keeps_bind; [apply _|apply keeps_st|]. intros _. apply keeps_st. }
  destruct repo_manager as [repo_manager|]; [|apply keeps_raise; apply _].
  repeat (apply keeps_bind; [apply _|apply keeps_st|]; intros _).
  apply keeps_bind; [apply _| |intros _; apply keeps_st].
  repeat match goal with
  | |- keeps _ (if String.eqb (selected ui) ?s then _ else _) =>
      destruct (String.eqb_spec (selected ui) s)
  end; try contradiction.
  - apply keeps_stats_page.
  - apply keeps_activity_page.
  - apply keeps_data_page.
  - apply keeps_visualize_page.
  - apply keeps_stars_page.
  - apply keeps_ret. apply _.
Qed.

End Pages.

Lemma keeps_app_run (P : string -> Prop) (strftime : string -> Z -> string) (ui : Widgets)
    (w : World) :
  keeps (frame P) (app.main strftime ui) -> frame P w (app.run strftime ui w).
Proof.
  intros Hk. specialize (Hk w). unfold app.run.
  destruct (app.main strftime ui w) as [[[]|e] w']; cbn in *; [exact Hk|].
  etransitivity; [exact Hk|apply frame_same; reflexivity].
Qed.

(** C7. The read-style operations leave the platform as it was and make
    only read calls: the CLI on every action word but create and delete,
    where the only file written, if any, is the one named by [--output]
    (and none at all for stats and list); the dashboard on every page but
    Create and Delete, which writes no file; and the fetching of commits
    ([get_all_commits]). *)
Theorem read_style_operations_leave_remote_unchanged :
  (forall inv w,
      hd "" (positionals inv) <> "create" -> hd "" (positionals inv) <> "delete" ->
      frame (fun path => given_output inv = Some path) w (snd (cli.run inv w)))
  /\ (forall inv w,
        hd "" (positionals inv) = "stats" \/ hd "" (positionals inv) = "list" ->
        frame (fun _ => False) w (snd (cli.run inv w)))
  /\ (forall strftime ui w,
        selected ui <> "Create 🆕" -> selected ui <> "Delete 🗑️" ->
        frame (fun _ => False) w (app.run strftime ui w))
  /\ (forall repo_manager repos w,
        frame (fun _ => False) w (snd (app.get_all_commits repo_manager repos w)))
  /\ (forall repo_manager format output w,
        frame (eq output) w (snd (cli.export_data repo_manager format output w))).
Proof.
  split; [|split; [|split; [|split]]].
  - intros inv w Hc Hd. apply keeps_cli_run, keeps_cli_main; auto.
  - intros inv w Ha. apply keeps_cli_run, keeps_cli_main.
    + destruct Ha as [-> | ->]; discriminate.
    + destruct Ha as [-> | ->]; discriminate.
    + intros Hin. exfalso. rewrite !elem_of_cons in Hin. rewrite elem_of_nil in Hin.
      destruct Ha as [Ha|Ha]; rewrite Ha in Hin; intuition discriminate.
  - intros strftime ui w Hc Hd. apply keeps_app_run, keeps_app_main; assumption.
  - intros repo_manager repos w. apply keeps_get_all_commits.
  - intros repo_manager format output w. apply keeps_export_data. reflexivity.
Qed.

Lemma export_on_fixture :
  let inv := Fixture.command ["export"] None (Some "csv") (Some "repos.csv") None in
  let w' := snd (cli.run inv Fixture.world) in
  frame (fun path => Some "repos.csv" = Some path) Fixture.world w'
  /\ map fst (written w') = ["repos.csv"]
  /\ remote w' = Fixture.hub.
Proof.
  split; [|split; reflexivity].
  apply (proj1 read_style_operations_leave_remote_unchanged
           (Fixture.command ["export"] None (Some "csv") (Some "repos.csv") None));
    discriminate.
Defined.


(** ** Failures of remote calls *)

Lemma fail_stop_mono (calls : list (Request * option exn)) (seen seen' : exn -> Prop) :
  (forall e, seen e -> seen' e) -> fail_stop calls seen -> fail_stop calls seen'.
Proof.
  intros H [Hok|(l0 & q & s & d & -> & Hok & Hs)]; [left; exact Hok|].
  right. exists l0, q, s, d. auto.
Qed.

Lemma fail_stop_app (before calls : list (Request * option exn)) (seen : exn -> Prop) :
  Forall succeeded before -> fail_stop calls seen -> fail_stop (before ++ calls) seen.
Proof.
  intros Hb [Hok|(l0 & q & s & d & -> & Hok & Hs)].
  - left. apply Forall_app; auto.
  - right. exists (before ++ l0)%list, q, s, d. rewrite app_assoc.
    split; [reflexivity|]. split; [apply Forall_app; auto|exact Hs].
Qed.

Lemma quiet_propagates {A} (c : M A) : quiet c -> propagates c.
Proof.
  intros Hq w. destruct (Hq w) as (Hr & els & Hp). exists els, [].
  rewrite app_nil_r. split; [assumption|]. split; [assumption|]. left. constructor.
Qed.

Lemma propagates_surfaces {A} (c : M A) : propagates c -> surfaces c.
Proof.
  intros Hc w. destruct (Hc w) as (els & calls & Hp & Hr & Hf). exists els, calls.
  split; [assumption|]. split; [assumption|]. eapply fail_stop_mono; [|exact Hf]. auto.
Qed.

Lemma quiet_ret {A} (a : A) : quiet (ret a).
Proof. intros w. split; [reflexivity|]. exists []. now rewrite app_nil_r. Qed.

Lemma quiet_raise {A} (e : exn) : quiet (@raise A e).
Proof. intros w. split; [reflexivity|]. exists []. now rewrite app_nil_r. Qed.

Lemma quiet_st (e : Element) : quiet (st e).
Proof. intros w. split; [reflexivity|]. eexists. reflexivity. Qed.

Lemma quiet_print (s : string) : quiet (print s).
Proof. intros w. split; [reflexivity|]. exists []. now rewrite app_nil_r. Qed.

Lemma quiet_write_file (path : string) (data : FileData) : quiet (write_file path data).
Proof. intros w. split; [reflexivity|]. exists []. now rewrite app_nil_r. Qed.

Lemma quiet_bind {A B} (c : M A) (k : A -> M B) :
  quiet c -> (forall a, quiet (k a)) -> quiet (bind c k).
Proof.
  intros Hc Hk w. unfold bind. destruct (Hc w) as (Hr & els & Hp).
  destruct (c w) as [[a|e] w1]; cbn in *; [|eauto].
  destruct (Hk a w1) as (Hr2 & els2 & Hp2). split; [congruence|].
  exists (els ++ els2)%list. rewrite Hp2, Hp. now rewrite app_assoc.
Qed.

Lemma quiet_for_each {A} (xs : list A) (body : A -> M unit) :
  (forall x, quiet (body x)) -> quiet (for_each xs body).
Proof.
  intros Hb. induction xs as [|x xs IH]; cbn; [apply quiet_ret|].
  apply quiet_bind; auto.
Qed.

Lemma quiet_getitem {V} (d : dict V) (key : string) : quiet (getitem d key).
Proof.
  induction d as [|[k v] d IH]; cbn; [apply quiet_raise|].
  destruct (bool_decide (k = key)); [apply quiet_ret|exact IH].
Qed.

Lemma propagates_call (q : Request) : propagates (call q).
Proof.
  intros w. destruct (call_run q w) as (a & r' & Hc & He). rewrite Hc. cbn.
  exists [], [(q, failure a)]. rewrite app_nil_r.
  split; [reflexivity|]. split; [reflexivity|].
  destruct a as [a|e]; cbn.
  - left. repeat constructor.
  - destruct (He e eq_refl) as (_ & s & d & ->). right.
    exists [], q, s, d. split; [reflexivity|]. split; [constructor|reflexivity].
Qed.

Lemma propagates_bind {A B} (c : M A) (k : A -> M B) :
  propagates c -> (forall a, propagates (k a)) -> propagates (bind c k).
Proof.
  intros Hc Hk w. unfold bind. destruct (Hc w) as (els & calls & Hp & Hr & Hf).
  destruct (c w) as [[a|e] w1]; cbn in *.
  - destruct Hf as [Hok|(l0 & q & s & d & _ & _ & Hs)]; [|discriminate].
    destruct (Hk a w1) as (els2 & calls2 & Hp2 & Hr2 & Hf2).
    exists (els ++ els2)%list, (calls ++ calls2)%list.
    rewrite Hp2, Hp, Hr2, Hr, !app_assoc.
    split; [reflexivity|]. split; [reflexivity|].
    apply fail_stop_app; assumption.
  - exists els, calls. split; [assumption|]. split; [assumption|].
    eapply fail_stop_mono; [|exact Hf]. intros e0 [= ->]. reflexivity.
Qed.

Lemma surfaces_bind {A B} (c : M A) (k : A -> M B) :
  propagates c -> (forall a, surfaces (k a)) -> surfaces (bind c k).
Proof.
  intros Hc Hk w. unfold bind. destruct (Hc w) as (els & calls & Hp & Hr & Hf).
  destruct (c w) as [[a|e] w1]; cbn in *.
  - destruct Hf as [Hok|(l0 & q & s & d & _ & _ & Hs)]; [|discriminate].
    destruct (Hk a w1) as (els2 & calls2 & Hp2 & Hr2 & Hf2).
    exists (els ++ els2)%list, (calls ++ calls2)%list.
    rewrite Hp2, Hp, Hr2, Hr, !app_assoc.
    split; [reflexivity|]. split; [reflexivity|].
    apply fail_stop_app; [assumption|].
    eapply fail_stop_mono; [|exact Hf2]. intros e [He|He]; [now left|right].
    apply Exists_app. now right.
  - exists els, calls. split; [assumption|]. split; [assumption|].
    eapply fail_stop_mono; [|exact Hf]. intros e0 [= ->]. now left.
Qed.

Lemma surfaces_then_quiet {A B} (c : M A) (k : A -> M B) :
  surfaces c -> (forall a, quiet (k a)) -> surfaces (bind c k).
Proof.
  intros Hc Hk w. unfold bind. destruct (Hc w) as (els & calls & Hp & Hr & Hf).
  destruct (c w) as [[a|e] w1]; cbn in *.
  - destruct (Hk a w1) as (Hr2 & els2 & Hp2).
    exists (els ++ els2)%list, calls. rewrite Hp2, Hp, Hr2, Hr, app_assoc.
    split; [reflexivity|]. split; [reflexivity|].
    eapply fail_stop_mono; [|exact Hf]. intros e [He|He]; [discriminate|right].
    apply Exists_app. now left.
  - exists els, calls. split; [assumption|]. split; [assumption|].
    eapply fail_stop_mono; [|exact Hf]. intros e0 [[= ->]|He]; [now left|now right].
Qed.

(** [try: c except GithubException as e: h e], with a handler that only
    shows the error. *)
Lemma surfaces_try_except_github {A} (c : M A) (h : exn -> M A) :
  propagates c ->
  (forall e w, requests (snd (h e w)) = requests w
               /\ exists el, page (snd (h e w)) = (page w ++ [el])%list /\ shows_error e el) ->
  surfaces (try_except_github c h).
Proof.
  intros Hc Hh w. unfold try_except_github. destruct (Hc w) as (els & calls & Hp & Hr & Hf).
  destruct (c w) as [[a|e] w1]; cbn in *.
  - exists els, calls. split; [assumption|]. split; [assumption|].
    eapply fail_stop_mono; [|exact Hf]. auto.
  - destruct e as [s d| | | |];
      try (exists els, calls; split; [assumption|]; split; [assumption|];
           eapply fail_stop_mono; [|exact Hf]; auto).
    destruct (Hh (GithubException s d) w1) as (Hr2 & el & Hp2 & Hs).
    exists (els ++ [el])%list, calls. rewrite Hp2, Hp, Hr2, Hr, app_assoc.
    split; [reflexivity|]. split; [reflexivity|].
    eapply fail_stop_mono; [|exact Hf]. intros e [= <-]. right.
    apply Exists_app. right. constructor. exact Hs.
Qed.

Ltac quiet_auto :=
  repeat first
    [ progress intros
    | apply quiet_ret | apply quiet_raise | apply quiet_st | apply quiet_print
    | apply quiet_write_file | apply quiet_getitem
    | apply quiet_bind | apply quiet_for_each
    | match goal with
      | |- quiet (if ?b then _ else _) => destruct b
      | |- quiet (match ?x with _ => _ end) => destruct x
      end ].

Ltac propagates_auto :=
  repeat first
    [ progress intros
    | apply propagates_call
    | apply quiet_propagates; solve [quiet_auto]
    | apply propagates_bind
    | match goal with
      | |- propagates (if ?b then _ else _) => destruct b
      | |- propagates (match ?x with _ => _ end) => destruct x
      end ].

Lemma propagates_all_repos (m : Manager) : propagates (all_repos m).
Proof. unfold all_repos, call_repos. propagates_auto. Qed.

Lemma propagates_GithubRepoManager (token : string) : propagates (GithubRepoManager token).
Proof. unfold GithubRepoManager, call_user. propagates_auto. Qed.

Lemma propagates_get_repo_stats (m : Manager) : propagates (get_repo_stats m).
Proof. unfold get_repo_stats, all_repos, call_repos. propagates_auto. Qed.

Lemma propagates_get_recent_repos (m : Manager) (n : nat) : propagates (get_recent_repos m n).
Proof. unfold get_recent_repos, all_repos, call_repos. propagates_auto. Qed.

Lemma propagates_get_repo_commits (m : Manager) (repo : Repo.t) :
  propagates (get_repo_commits m repo).
Proof. unfold get_repo_commits, call_commits. propagates_auto. Qed.

Lemma propagates_get_repos_dataframe (m : Manager) : propagates (get_repos_dataframe m).
Proof. unfold get_repos_dataframe, all_repos, call_repos. propagates_auto. Qed.

Lemma propagates_get_starred_repos (m : Manager) : propagates (get_starred_repos m).
Proof. unfold get_starred_repos, call_repos. propagates_auto. Qed.

Lemma propagates_create_repo (m : Manager) (name : string) (description : option string)
    (private auto_init : bool) (gitignore license : option string) :
  propagates (create_repo m name description private auto_init gitignore license).
Proof. unfold create_repo, call_repo. propagates_auto. Qed.

Lemma propagates_delete_repo (m : Manager) (name : string) : propagates (delete_repo m name).
Proof. unfold delete_repo. propagates_auto. Qed.

Lemma quiet_load_token_from_env : quiet cli.load_token_from_env.
Proof.
  intros w. destruct (load_token_from_env_frame w) as (token & environ' & H).
  rewrite (H w eq_refl eq_refl). split; [reflexivity|]. exists []. now rewrite app_nil_r.
Qed.

Lemma quiet_parse_args (inv : Invocation) : quiet (cli.parse_args inv).
Proof.
  intros w. destruct (parse_args_cases inv w) as [(m & ->)|(a & _ & _ & ->)];
    (split; [reflexivity|]; exists []; now rewrite app_nil_r).
Qed.

Lemma propagates_cli_main (inv : Invocation) : propagates (cli.main inv).
Proof.
  unfold cli.main.
  apply propagates_bind; [apply quiet_propagates, quiet_load_token_from_env|]. intros token.
  destruct (negb (truthy token)); [apply quiet_propagates, quiet_print|].
  apply propagates_bind; [apply quiet_propagates, quiet_parse_args|]. intros args.
  apply propagates_bind; [apply propagates_GithubRepoManager|]. intros repo_manager.
  repeat match goal with
  | |- propagates (if ?b then _ else _) => destruct b
  end.
  - apply propagates_bind; [apply propagates_get_repo_stats|]. propagates_auto.
  - apply propagates_bind; [apply propagates_all_repos|]. propagates_auto.
  - propagates_auto.
  - apply propagates_bind; [apply propagates_create_repo|]. propagates_auto.
  - propagates_auto.
  - apply propagates_bind; [apply propagates_delete_repo|]. propagates_auto.
  - propagates_auto.
  - unfold cli.export_data.
    apply propagates_bind; [apply propagates_get_repos_dataframe|]. propagates_auto.
  - propagates_auto.
  - unfold cli.export_stars.
    apply propagates_bind; [apply propagates_get_starred_repos|]. propagates_auto.
  - propagates_auto.
  - unfold cli.visualize.
    apply propagates_bind; [apply propagates_get_repos_dataframe|]. propagates_auto.
  - propagates_auto.
Qed.

Section Dashboard.

Context (strftime : string -> Z -> string).

Lemma quiet_export_to_csv (data : DataFrame) (filename : string) :
  quiet (app.export_to_csv strftime data filename).
Proof. intros w. split; [reflexivity|]. eexists. reflexivity. Qed.

Lemma propagates_collect_commits (m : Manager) (repos : list Repo.t)
    (all_commits : list CommitRow) :
  propagates (app.collect_commits m repos all_commits).
Proof.
  revert all_commits. induction repos as [|repo repos IH]; intros all_commits; cbn.
  - apply quiet_propagates, quiet_ret.
  - apply propagates_bind; [apply propagates_get_repo_commits|]. intros commits. apply IH.
Qed.

Lemma propagates_get_all_commits (m : Manager) (repos : list Repo.t) :
  propagates (app.get_all_commits m repos).
Proof.
  unfold app.get_all_commits.
  apply propagates_bind; [apply propagates_collect_commits|]. propagates_auto.
Qed.

Lemma quiet_show_metrics (i : nat) (ms : list (string * nat * string)) :
  quiet (app.show_metrics i ms).
Proof.
  revert i. induction ms as [|[[key value] color] ms IH]; intros i; cbn.
  - apply quiet_ret.
  - apply quiet_bind; [apply quiet_st|]. intros _.
    apply quiet_bind; [apply quiet_st|]. intros _. apply IH.
Qed.

Lemma propagates_stats_page (m : Manager) : propagates (app.stats_page m).
Proof.
  unfold app.stats_page.
  apply propagates_bind; [apply quiet_propagates, quiet_st|]. intros _.
  apply propagates_bind; [apply propagates_get_repo_stats|]. intros stats.
  apply propagates_bind; [apply quiet_propagates; unfold app.create_summary; quiet_auto|].
  intros summary.
  apply propagates_bind; [apply quiet_propagates, quiet_st|]. intros _.
  apply propagates_bind; [apply quiet_propagates; unfold app.metrics; quiet_auto|].
  intros ms. apply quiet_propagates, quiet_show_metrics.
Qed.

Lemma propagates_list_recent (m : Manager) (ui : Widgets) (i : nat) (repos : list Repo.t)
    (all_commits : list CommitRow) :
  propagates (app.list_recent strftime m ui i repos all_commits).
Proof.
  revert i all_commits. induction repos as [|repo repos IH]; intros i all_commits; cbn.
  - apply quiet_propagates, quiet_ret.
  - apply propagates_bind; [apply quiet_propagates, quiet_st|]. intros _.
    apply propagates_bind; [apply propagates_get_repo_commits|]. intros commits.
    destruct commits as [|commit commits].
    + apply propagates_bind; [apply quiet_propagates, quiet_st|]. intros _. apply IH.
    + destruct (show_all_commits ui); [apply IH|].
      apply propagates_bind; [|intros _; apply IH].
      apply quiet_propagates, quiet_for_each. intros c. apply quiet_st.
Qed.

Lemma quiet_filter_commits (m : Manager) (df_commits : list (nat * CommitRow)) :
  quiet (app.filter_commits m df_commits).
Proof. unfold app.filter_commits. quiet_auto. Qed.

Lemma propagates_activity_page (m : Manager) (ui : Widgets) :
  propagates (app.activity_page strftime m ui).
Proof.
  unfold app.activity_page.
  apply propagates_bind; [apply quiet_propagates, quiet_st|]. intros _.
  apply propagates_bind; [apply quiet_propagates, quiet_st|]. intros _.
  apply propagates_bind; [apply propagates_get_recent_repos|]. intros recent_repos.
  apply propagates_bind; [apply propagates_list_recent|]. intros all_commits.
  apply propagates_bind; [|intros _].
  { apply quiet_propagates. destruct (show_all_commits ui && _).
    - apply quiet_bind; [apply quiet_st|]. intros _.
      apply quiet_bind; [|intros df; apply quiet_st].
      destruct (filter_user_commits ui); [apply quiet_filter_commits|apply quiet_ret].
    - destruct (show_all_commits ui); [apply quiet_st|apply quiet_ret]. }
  apply propagates_bind; [apply quiet_propagates, quiet_st|]. intros _.
  apply propagates_bind; [|intros _].
  { destruct (prepare_export ui); [|apply quiet_propagates, quiet_ret].
    apply propagates_bind; [apply propagates_get_all_commits|]. intros df.
    apply propagates_bind; [apply quiet_propagates, quiet_st|]. intros _.
    apply quiet_propagates, quiet_export_to_csv. }
  apply quiet_propagates.
  destruct (map _ recent_repos); [apply quiet_raise|apply quiet_st].
Qed.

Lemma propagates_data_page (m : Manager) (ui : Widgets) :
  propagates (app.data_page strftime m ui).
Proof.
  unfold app.data_page.
  apply propagates_bind; [apply quiet_propagates, quiet_st|]. intros _.
  apply propagates_bind; [apply propagates_get_repos_dataframe|]. intros df.
  apply quiet_propagates.
  apply quiet_bind; [destruct (format_owned ui); [apply quiet_st|apply quiet_ret]|]. intros _.
  apply quiet_bind; [apply quiet_st|]. intros _. apply quiet_export_to_csv.
Qed.

Lemma propagates_visualize_page (m : Manager) : propagates (app.visualize_page m).
Proof.
  unfold app.visualize_page.
  apply propagates_bind; [apply quiet_propagates, quiet_st|]. intros _.
  apply propagates_bind; [apply quiet_propagates, quiet_st|]. intros _.
  apply propagates_bind; [apply propagates_get_repos_dataframe|]. propagates_auto.
Qed.

Lemma propagates_stars_page (m : Manager) : propagates (app.stars_page strftime m).
Proof.
  unfold app.stars_page.
  apply propagates_bind; [apply quiet_propagates, quiet_st|]. intros _.
  apply propagates_bind; [apply quiet_propagates, quiet_st|]. intros _.
  apply propagates_bind; [apply propagates_get_starred_repos|]. intros df.
  apply quiet_propagates.
  repeat (apply quiet_bind; [apply quiet_st|]; intros _).
  apply quiet_export_to_csv.
Qed.

Lemma handler_shows_error (prefix : string) (e : exn) (w : World) :
  requests (snd (st (st_error (prefix +:+ str e)) w)) = requests w
  /\ exists el, page (snd (st (st_error (prefix +:+ str e)) w)) = (page w ++ [el])%list
                /\ shows_error e el.
Proof.
  split; [reflexivity|]. eexists. split; [reflexivity|]. right. eexists. reflexivity.
Qed.

Lemma surfaces_create_repository (m : Manager) (ui : Widgets) :
  surfaces (app.create_repository m ui).
Proof.
  unfold app.create_repository.
  apply surfaces_bind; [apply quiet_propagates, quiet_st|]. intros _.
  apply surfaces_bind; [apply quiet_propagates, quiet_st|]. intros _.
  destruct (submitted ui); [|apply propagates_surfaces, quiet_propagates, quiet_ret].
  apply surfaces_try_except_github.
  - apply propagates_bind; [apply propagates_create_repo|]. propagates_auto.
  - intros e w. apply handler_shows_error.
Qed.

Lemma surfaces_delete_repository (m : Manager) (ui : Widgets) :
  surfaces (app.delete_repository m ui).
Proof.
  unfold app.delete_repository.
  apply surfaces_bind; [apply quiet_propagates, quiet_st|]. intros _.
  apply surfaces_bind; [apply propagates_all_repos|]. intros repos.
  destruct (truthy _); [|apply propagates_surfaces, quiet_propagates, quiet_ret].
  apply surfaces_bind; [apply quiet_propagates, quiet_st|]. intros _.
  apply surfaces_bind; [apply quiet_propagates, quiet_st|]. intros _.
  destruct (delete_button ui); [|apply propagates_surfaces, quiet_propagates, quiet_ret].
  destruct (String.eqb _ _); [|apply propagates_surfaces, quiet_propagates, quiet_st].
  apply surfaces_try_except_github.
  - apply propagates_bind; [apply propagates_delete_repo|]. propagates_auto.
  - intros e w. apply handler_shows_error.
Qed.

End Dashboard.

Lemma perform_run (repo_manager : Manager) (op : ManagerOp) (w : World) :
  exists (a : res Response) r',
    call (request_of op) w = (a, answered (request_of op) (failure a) r' w)
    /\ (forall e, a = Raise e -> r' = remote w)
    /\ perform repo_manager op w
       = (match a with Ret _ => Ret tt | Raise e => Raise e end,
          answered (request_of op) (failure a) r' w).
Proof.
  destruct (call_run (request_of op) w) as (a & r' & Hc & He). exists a, r'.
  split; [exact Hc|]. split; [intros e Ha; exact (proj1 (He e Ha))|].
  destruct op; cbn in Hc |- *;
    unfold perform, all_repos, get_repo_stats, get_recent_repos, get_repo_commits,
      create_repo, delete_repo, get_starred_repos, all_repos,
      call_repos, call_commits, call_repo, bind;
    rewrite Hc; destruct a; reflexivity.
Qed.

Section Runs.

Context (strftime : string -> Z -> string).

(** How [initialize_repo_manager] ends. *)
Lemma initialize_repo_manager_cases (w : World) :
  exists environ',
    let w1 := set_environ environ' w in
    app.initialize_repo_manager w = (Ret (None, Some app_token_error), w1)
    \/ (exists token,
          app.initialize_repo_manager w
          = (Ret (Some (mkManager token (r_user (remote w))), None),
             answered GetUser None (remote w) w1))
    \/ (exists status data,
          app.initialize_repo_manager w
          = (Ret (None, Some ("Error initializing GitHub connection: "
                              +:+ str (GithubException status data))),
             answered GetUser (Some (GithubException status data)) (remote w) w1)).
Proof.
  destruct (load_token_from_env_frame w) as (token & environ' & Hload).
  exists environ'. cbv zeta. unfold app.initialize_repo_manager, bind.
  change app.load_token_from_env with cli.load_token_from_env.
  rewrite (Hload w eq_refl eq_refl).
  destruct (negb (truthy token)); [left; reflexivity|right].
  unfold try_except_exception.
  destruct (GithubRepoManager_run (the token) (set_environ environ' w)) as [->|(s & d & ->)].
  - left. exists (the token). reflexivity.
  - right. exists s, d. reflexivity.
Qed.

Lemma surfaces_pages (repo_manager : Manager) (ui : Widgets) :
  surfaces
    (if String.eqb (selected ui) "Stats 📊" then app.stats_page repo_manager
     else if String.eqb (selected ui) "Activity 🕒" then app.activity_page strftime repo_manager ui
     else if String.eqb (selected ui) "Data 📁" then app.data_page strftime repo_manager ui
     else if String.eqb (selected ui) "Visualize 📈" then app.visualize_page repo_manager
     else if String.eqb (selected ui) "Stars ⭐" then app.stars_page strftime repo_manager
     else if String.eqb (selected ui) "Create 🆕" then app.create_repository repo_manager ui
     else if String.eqb (selected ui) "Delete 🗑️" then app.delete_repository repo_manager ui
     else ret tt).
Proof.
  repeat match goal with |- surfaces (if ?b then _ else _) => destruct b end.
  - apply propagates_surfaces, propagates_stats_page.
  - apply propagates_surfaces, propagates_activity_page.
  - apply propagates_surfaces, propagates_data_page.
  - apply propagates_surfaces, propagates_visualize_page.
  - apply propagates_surfaces, propagates_stars_page.
  - apply surfaces_create_repository.
  - apply surfaces_delete_repository.
  - apply propagates_surfaces, quiet_propagates, quiet_ret.
Qed.

Lemma surfaces_app_main (ui : Widgets) : surfaces (app.main strftime ui).
Proof.
  intros w. destruct (app.main strftime ui w) as [r w'] eqn:E. cbn [fst snd].
  unfold app.main in E. unfold bind at 1 in E. unfold st at 1 in E. unfold bind at 1 in E.
  set (w0 := set_page _ w) in E.
  destruct (initialize_repo_manager_cases w0) as (environ' & [Hi|[(token & Hi)|(s & d & Hi)]]);
    rewrite Hi in E.
  - cbn in E. injection E as <- <-. cbn. eexists. exists [].
    split; [rewrite <- !app_assoc; reflexivity|]. split; [now rewrite app_nil_r|].
    left. constructor.
  - cbn [truthy] in E.
    match type of E with ?k ?x = _ => assert (Hk : surfaces k) end.
    { apply surfaces_bind; [apply quiet_propagates, quiet_st|]. intros _.
      apply surfaces_bind; [apply quiet_propagates, quiet_st|]. intros _.
      apply surfaces_bind; [apply quiet_propagates, quiet_st|]. intros _.
      apply surfaces_then_quiet; [apply surfaces_pages|]. intros _. apply quiet_st. }
    match type of E with ?k ?x = _ => destruct (Hk x) as (els & calls & Hp & Hr & Hf) end.
    rewrite E in Hp, Hr, Hf. cbn in Hp, Hr, Hf.
    exists (st_markdown "<style>" :: els), ((GetUser, None) :: calls).
    rewrite Hp, Hr, <- !app_assoc. split; [reflexivity|]. split; [reflexivity|].
    apply (fail_stop_app [(GetUser, None)]).
    + constructor; [reflexivity|constructor].
    + eapply fail_stop_mono; [|exact Hf]. intros e [He|He]; [now left|right].
      now apply Exists_cons_tl.
  - cbn in E. injection E as <- <-. cbn.
    eexists. exists [(GetUser, Some (GithubException s d))].
    split; [rewrite <- !app_assoc; reflexivity|]. split; [reflexivity|]. right.
    exists [], GetUser, s, d. split; [reflexivity|]. split; [constructor|]. right.
    apply Exists_cons_tl, Exists_cons_hd. right. eexists. reflexivity.
Qed.

Lemma app_run_shows_failures (ui : Widgets) (w : World) :
  exists els calls,
    page (app.run strftime ui w) = (page w ++ els)%list
    /\ requests (app.run strftime ui w) = (requests w ++ calls)%list
    /\ fail_stop calls (fun e => Exists (shows_error e) els).
Proof.
  destruct (surfaces_app_main ui w) as (els & calls & Hp & Hr & Hf). unfold app.run.
  destruct (app.main strftime ui w) as [[[]|e] w']; cbn in *.
  - exists els, calls. split; [assumption|]. split; [assumption|].
    eapply fail_stop_mono; [|exact Hf]. intros e [He|He]; [discriminate|exact He].
  - exists (els ++ [st_exception e])%list, calls. rewrite Hp, app_assoc.
    split; [reflexivity|]. split; [assumption|].
    eapply fail_stop_mono; [|exact Hf]. intros e' [[= ->]|He]; apply Exists_app.
    + right. constructor. now left.
    + now left.
Qed.

End Runs.

Lemma cli_run_propagates_failures (inv : Invocation) (w : World) :
  exists calls,
    requests (snd (cli.run inv w)) = (requests w ++ calls)%list
    /\ fail_stop calls (fun e => fst (cli.run inv w) = 1
                                 /\ last (stderr (snd (cli.run inv w))) = Some (Traceback e)).
Proof.
  destruct (propagates_cli_main inv w) as (els & calls & Hp & Hr & Hf). unfold cli.run.
  exists calls. split.
  - destruct (cli.main inv w) as [[[]|[]] w']; exact Hr.
  - destruct Hf as [Hok|(l0 & q & s & d & -> & Hok & Hs)]; [left; exact Hok|].
    right. exists l0, q, s, d. split; [reflexivity|]. split; [exact Hok|].
    destruct (cli.main inv w) as [r w']. cbn in Hs. subst r. cbn.
    split; [reflexivity|]. apply last_snoc.
Qed.

(** C4. Every operation of the manager (list, stats, recent, commits,
    create, delete, stars) sends exactly one request and uses up exactly
    one answer of the platform; when the platform answers with an API
    error the operation raises that error to its caller and leaves the
    platform as it was, and nothing is sent a second time.  In one run of
    the dashboard no call follows a failed one, and the page shows the
    error of the failed call ([st.error] with its text, or the exception
    box of an exception the script let through); in one run of the CLI no
    call follows a failed one, and the error ends the process with status 1
    and a traceback. *)
Theorem remote_failures_propagate_and_surface :
  (forall repo_manager op w,
      let r := fst (perform repo_manager op w) in
      let w' := snd (perform repo_manager op w) in
      exists outcome,
        requests w' = (requests w ++ [(request_of op, outcome)])%list
        /\ faults w' = tl (faults w)
        /\ (forall status data, hd None (faults w) = Some (status, data) ->
              outcome = Some (GithubException status data))
        /\ (forall e, outcome = Some e -> r = Raise e /\ remote w' = remote w)
        /\ (outcome = None -> r = Ret tt))
  /\ (forall strftime ui w,
        exists els calls,
          page (app.run strftime ui w) = (page w ++ els)%list
          /\ requests (app.run strftime ui w) = (requests w ++ calls)%list
          /\ fail_stop calls (fun e => Exists (shows_error e) els))
  /\ (forall inv w,
        exists calls,
          requests (snd (cli.run inv w)) = (requests w ++ calls)%list
          /\ fail_stop calls (fun e => fst (cli.run inv w) = 1
                                       /\ last (stderr (snd (cli.run inv w)))
                                          = Some (Traceback e))).
Proof.
  split; [|split].
  - intros repo_manager op w r w'. subst r w'.
    destruct (perform_run repo_manager op w) as (a & r' & Hc & He & ->). cbn.
    exists (failure a). split; [reflexivity|]. split; [reflexivity|].
    split; [|split].
    + intros status data Hf. rewrite (call_failed _ _ _ _ Hf) in Hc.
      injection Hc as <- _. reflexivity.
    + intros e Ha. destruct a as [a|e']; [discriminate|]. injection Ha as ->.
      split; [reflexivity|]. exact (He e eq_refl).
    + intros Ha. destruct a; [reflexivity|discriminate].
  - intros strftime ui w. apply app_run_shows_failures.
  - intros inv w. apply cli_run_propagates_failures.
Qed.

Lemma rate_limit_on_fixture :
  let limit := GithubException 403 "API rate limit exceeded" in
  let taken := GithubException 422 "name already exists on this account" in
  let w1 := app.run Fixture.strftime (Fixture.widgets "Stats 📊") Fixture.world_rate_limited in
  let w2 := app.run Fixture.strftime (Fixture.create_widgets "demo") Fixture.world in
  requests w1 = [(GetUser, None); (ListRepos, Some limit)]
  /\ last (page w1) = Some (st_exception limit)
  /\ map snd (requests w2) = [None; Some taken]
  /\ bool_decide
       (st_error "An error occurred while creating the repository: 422 name already exists on this account"
        ∈ page w2) = true
  /\ exists els calls,
       page w1 = (page Fixture.world_rate_limited ++ els)%list
       /\ requests w1 = (requests Fixture.world_rate_limited ++ calls)%list
       /\ fail_stop calls (fun e => Exists (shows_error e) els).
Proof.
  split; [reflexivity|]. split; [reflexivity|]. split; [reflexivity|].
  split; [vm_compute; reflexivity|].
  exact (proj1 (proj2 remote_failures_propagate_and_surface)
           Fixture.strftime (Fixture.widgets "Stats 📊") Fixture.world_rate_limited).
Defined.

(** * Further properties of the two programs *)

(** ** The command line program by stages *)




(** Naming the run [c] of a program, to compute it in the equation [E]. *)
Ltac name_run c E :=
  let x := fresh "run" in
  set (x := c) in *; assert (E : x = c) by reflexivity; clearbody x.

(** ** The tables a listing call gives *)

Lemma get_repos_dataframe_cases (repo_manager : Manager) (w : World) :
  (hd None (faults w) = None
   /\ get_repos_dataframe repo_manager w
      = (Ret (RepoFrame (range_index (map (repo_row (User.login (user repo_manager)))
                                        (r_repos (remote w))))),
         answered ListRepos None (remote w) w))
  \/ (exists status data,
        hd None (faults w) = Some (status, data)
        /\ get_repos_dataframe repo_manager w
           = (Raise (GithubException status data),
              answered ListRepos (Some (GithubException status data)) (remote w) w)).
Proof.
  unfold get_repos_dataframe, bind.
  destruct (all_repos_run repo_manager w) as [[H ->]|(status & data & H & ->)]; eauto 10.
Qed.


(** ** The export and chart commands *)












(** ** The other commands *)


Lemma get_repo_stats_cases (repo_manager : Manager) (w : World) :
  (hd None (faults w) = None
   /\ get_repo_stats repo_manager w
      = (Ret (repo_stats (User.login (user repo_manager)) (r_repos (remote w))),
         answered ListRepos None (remote w) w))
  \/ (exists status data,
        hd None (faults w) = Some (status, data)
        /\ get_repo_stats repo_manager w
           = (Raise (GithubException status data),
              answered ListRepos (Some (GithubException status data)) (remote w) w)).
Proof.
  unfold get_repo_stats, bind.
  destruct (all_repos_run repo_manager w) as [[H ->]|(status & data & H & ->)]; eauto 10.
Qed.

Lemma create_repo_run (repo_manager : Manager) (name : string) (description : option string)
    (private auto_init : bool) (gitignore_template license_template : option string)
    (w : World) :
  let q := CreateRepo name description private auto_init gitignore_template license_template in
  (exists new_repo r',
      create_repo repo_manager name description private auto_init
        gitignore_template license_template w
      = (Ret new_repo, answered q None r' w))
  \/ (exists status data,
        create_repo repo_manager name description private auto_init
          gitignore_template license_template w
        = (Raise (GithubException status data),
           answered q (Some (GithubException status data)) (remote w) w)).
Proof.
  intros q. unfold create_repo, call_repo, bind. fold q.
  destruct (call_run q w) as (a & r' & -> & Hfail).
  destruct a as [resp|e]; cbn.
  - left. eauto.
  - right. destruct (Hfail e eq_refl) as (-> & status & data & ->). eauto.
Qed.







(** ** The Stats page *)

Lemma getitem_get {V} (d : dict V) (key : string) (w : World) :
  getitem d key w = match get d key with
                    | Some v => (Ret v, w)
                    | None => (Raise (KeyError key), w)
                    end.
Proof.
  unfold get. induction d as [|[k v] d IH]; [reflexivity|].
  cbn. destruct (bool_decide (k = key)); [reflexivity|exact IH].
Qed.

(** X7. [create_summary] and the metric list of the Stats page read the
    same six keys of the statistics in the same order, so they fail alike:
    each raises [KeyError] for the first of these keys the dictionary
    lacks, and returns when it has them all; neither changes anything. *)
Theorem summary_and_metrics_need_the_same_keys (repo_manager : Manager) (stats : dict nat)
    (w : World) :
  match first_missing (stats_keys (User.login (user repo_manager))) stats with
  | Some key =>
      key ∈ stats_keys (User.login (user repo_manager))
      /\ get stats key = None
      /\ app.create_summary repo_manager stats w = (Raise (KeyError key), w)
      /\ app.metrics repo_manager stats w = (Raise (KeyError key), w)
  | None =>
      (exists summary, app.create_summary repo_manager stats w = (Ret summary, w))
      /\ exists ms,
           app.metrics repo_manager stats w = (Ret ms, w)
           /\ map (fun m => fst (fst m)) ms = stats_keys (User.login (user repo_manager))
           /\ Forall (fun m => get stats (fst (fst m)) = Some (snd (fst m))) ms
  end.
Proof.
  unfold first_missing, stats_keys, app.create_summary, app.metrics.
  set (login := User.login (user repo_manager)).
  unfold bind. rewrite !getitem_get. cbn [List.find].
  destruct (get stats "Total Repositories") eqn:H1.
  2:{ repeat split; auto. list_member. }
  rewrite !getitem_get.
  destruct (get stats ("Owned by " +:+ login)) eqn:H2.
  2:{ repeat split; auto. list_member. }
  rewrite !getitem_get.
  destruct (get stats "Public") eqn:H3.
  2:{ repeat split; auto. list_member. }
  rewrite !getitem_get.
  destruct (get stats "Private") eqn:H4.
  2:{ repeat split; auto. list_member. }
  rewrite !getitem_get.
  destruct (get stats "Forked") eqn:H5.
  2:{ repeat split; auto. list_member. }
  rewrite !getitem_get.
  destruct (get stats "Archived") eqn:H6.
  2:{ repeat split; auto. list_member. }
  split; [eexists; reflexivity|].
  eexists. split; [reflexivity|]. split; [reflexivity|].
  repeat constructor; assumption.
Qed.

Lemma show_metrics_run (i : nat) (ms : list (string * nat * string)) (w : World) :
  app.show_metrics i ms w
  = (Ret tt,
     set_page (page w ++
               flat_map (fun '(k, (key, value, color)) =>
                           [ in_column (k mod 3) (st_markdown (app.metric_label color key));
                             in_column (k mod 3) (st_markdown (app.metric_value color value)) ])
                 (combine (seq i (length ms)) ms)) w).
Proof.
  revert i w. induction ms as [|[[key value] color] ms IH]; intros i w.
  - cbn. rewrite app_nil_r. now destruct w.
  - cbn [app.show_metrics length seq combine flat_map].
    rewrite !bind_st. rewrite IH. cbn. now rewrite <- !app_assoc.
Qed.

(** X8. The metric loop puts metric number [k] (counting from the start
    index [i]) into column [(i + k) mod 3], as two page elements, its
    label directly followed by its value; the page grows by exactly two
    elements per metric and nothing else changes. *)
Theorem metrics_go_round_three_columns (i : nat) (ms : list (string * nat * string))
    (w : World) :
  exists els,
    app.show_metrics i ms w = (Ret tt, set_page (page w ++ els) w)
    /\ length els = 2 * length ms
    /\ forall k key value color,
         ms !! k = Some (key, value, color) ->
         (i + k) mod 3 < 3
         /\ els !! (2 * k)
            = Some (in_column ((i + k) mod 3) (st_markdown (app.metric_label color key)))
         /\ els !! (2 * k + 1)
            = Some (in_column ((i + k) mod 3) (st_markdown (app.metric_value color value))).
Proof.
  rewrite show_metrics_run. eexists. split; [reflexivity|].
  clear w. revert i. induction ms as [|[[key0 value0] color0] ms IH]; intros i.
  - split; [reflexivity|]. intros k key value color H. discriminate.
  - cbn [length seq combine flat_map]. destruct (IH (S i)) as [Hlen Hk]. split.
    + cbn [app length]. rewrite Hlen. lia.
    + intros k key value color H. destruct k as [|k].
      * cbn in H. injection H as <- <- <-. rewrite Nat.add_0_r.
        split; [apply Nat.mod_upper_bound; lia|]. split; reflexivity.
      * cbn in H. destruct (Hk k key value color H) as (Hb & Hl & Hv).
        replace (i + S k) with (S i + k) by lia.
        split; [exact Hb|].
        replace (2 * S k) with (S (S (2 * k))) by lia.
        replace (S (S (2 * k)) + 1) with (S (S (2 * k + 1))) by lia.
        split; [exact Hl|exact Hv].
Qed.

(** ** The Create and Delete pages *)

(** X9. The Create page sends nothing until the form is submitted.  A
    submitted form sends exactly one creation call carrying the fields as
    typed, with a template left empty sent as no template, and without any
    check of the name, an empty one included.  The page then shows the
    success message with the address of the new repository, or the error
    message with the text of the API error and the platform unchanged; it
    never raises. *)
Theorem create_form_sends_one_call (repo_manager : Manager) (ui : Widgets) (w : World) :
  let w' := snd (app.create_repository repo_manager ui w) in
  let header := st_header "Create New Repository" in
  let intro := st_write "This section allows you to create a new GitHub repository directly from the app." in
  fst (app.create_repository repo_manager ui w) = Ret tt
  /\ if submitted ui then
       exists outcome,
         requests w'
         = (requests w ++
            [(CreateRepo (repo_name ui) (Some (description ui)) (private ui) (auto_init ui)
                (if String.eqb (gitignore_template ui) "" then None
                 else Some (gitignore_template ui))
                (if String.eqb (license_template ui) "" then None
                 else Some (license_template ui)),
              outcome)])%list
         /\ match outcome with
            | None =>
                exists url,
                  page w'
                  = (page w ++
                     [header; intro;
                      st_success ("Repository '" +:+ repo_name ui
                                  +:+ "' created successfully! URL: " +:+ url)])%list
            | Some e =>
                page w'
                = (page w ++
                   [header; intro;
                    st_error ("An error occurred while creating the repository: " +:+ str e)])%list
                /\ remote w' = remote w
            end
     else requests w' = requests w /\ remote w' = remote w
          /\ page w' = (page w ++ [header; intro])%list.
Proof.
  intros w' header intro. subst w'.
  name_run (app.create_repository repo_manager ui w) E.
  unfold app.create_repository in E. rewrite !bind_st in E.
  destruct (submitted ui).
  2:{ subst. cbn. rewrite <- !app_assoc. repeat split. }
  unfold try_except_github, bind in E.
  match type of E with
  | context [create_repo ?m ?n ?d ?p ?a ?g ?l ?w0] =>
      destruct (create_repo_run m n d p a g l w0)
        as [(new_repo & r' & Hc)|(status & data & Hc)]; rewrite Hc in E
  end; subst; cbn; (split; [reflexivity|]).
  - exists None. split; [reflexivity|]. eexists. now rewrite <- !app_assoc.
  - eexists (Some _). split; [reflexivity|]. split; [|reflexivity].
    now rewrite <- !app_assoc.
Qed.

Lemma length_append (x y : string) :
  String.length (x +:+ y) = String.length x + String.length y.
Proof.
  induction x as [|c x IH]; [reflexivity|].
  change (String c x +:+ y) with (String c (x +:+ y)). cbn. now rewrite IH.
Qed.

Lemma append_cancel_r (x y z : string) : x +:+ z = y +:+ z -> x = y.
Proof.
  intros H.
  assert (Hl : String.length x = String.length y).
  { apply (f_equal String.length) in H. rewrite !length_append in H. lia. }
  revert y H Hl. induction x as [|c x IH]; intros [|d y] H Hl; try discriminate.
  - reflexivity.
  - change (String c (x +:+ z) = String d (y +:+ z)) in H.
    injection H as -> H. f_equal. apply IH; [exact H|]. cbn in Hl. lia.
Qed.

(** X10. What the Delete page sends for deletion is always the entry
    chosen in the list of repositories, which holds the names of the
    listed repositories the account administers and nothing else, and
    the message that the repository has been deleted is shown only when
    such a call was made and succeeded. *)
Theorem delete_page_targets_listed_repository (repo_manager : Manager) (ui : Widgets)
    (w : World) :
  let w' := snd (app.delete_repository repo_manager ui w) in
  exists calls els,
    requests w' = (requests w ++ calls)%list
    /\ page w' = (page w ++ els)%list
    /\ (forall name outcome,
          (DeleteRepo name, outcome) ∈ calls ->
          (exists repo, repo ∈ r_repos (remote w) /\ Repo.admin repo = true
                        /\ Repo.name repo = name)
          /\ admin_names (r_repos (remote w)) !! selectbox_index ui = Some name
          /\ confirmation ui = name)
    /\ (forall name,
          st_success ("Repository " +:+ name +:+ " has been deleted successfully.") ∈ els ->
          (DeleteRepo name, None) ∈ calls).
Proof.
  intros w'. subst w'.
  pose proof (delete_repository_cases repo_manager ui w) as H. cbn zeta in H.
  set (sel := selectbox (admin_names (r_repos (remote w))) (selectbox_index ui)) in *.
  assert (Hsel : truthy sel = true ->
                 admin_names (r_repos (remote w)) !! selectbox_index ui = Some (the sel)
                 /\ exists repo, repo ∈ r_repos (remote w) /\ Repo.admin repo = true
                                 /\ Repo.name repo = the sel).
  { intros Ht. apply truthy_Some in Ht. split; [exact Ht|].
    apply admin_names_spec. eapply list_elem_of_lookup_2. exact Ht. }
  assert (Hinj : forall a b, st_success ("Repository " +:+ a +:+ " has been deleted successfully.")
                            = st_success ("Repository " +:+ b +:+ " has been deleted successfully.")
                            -> a = b).
  { intros a b [= Hab]. eapply append_cancel_r. exact Hab. }
  destruct H as [(status & data & _ & Hq & Hp & _)
    |(_ & _ & [(_ & Hq & Hp & _)|[(_ & _ & Hq & Hp & _)|[(_ & _ & _ & Hq & Hp & _)
    |(Ht & _ & Hconf & [(Hq & Hp)|(status & data & Hq & Hp & _)])]]])];
    eexists _, _; (split; [exact Hq|]); (split; [exact Hp|]); split;
    try (intros name outcome Hin; rewrite !elem_of_cons, elem_of_nil in Hin;
         destruct Hin as [Hin|Hin]; [discriminate|]);
    try (intros name Hin; rewrite !elem_of_cons, elem_of_nil in Hin).
  all: try (destruct Hin as [Hin|Hin]; [discriminate|]).
  all: try (destruct Hin as [Hin|Hin]; [discriminate|]).
  all: try (destruct Hin as [Hin|Hin]; [discriminate|]).
  all: try (exfalso; tauto).
  all: try (unfold abort_error in Hin; destruct Hin as [Hin|[]]; discriminate).
  - destruct Hin as [[= -> _]|[]]. destruct (Hsel Ht) as [Hl Hr]. auto.
  - match goal with
    | H : _ \/ False |- _ => destruct H as [H|[]]; apply Hinj in H; subst name
    | H : st_success _ = st_success _ |- _ => apply Hinj in H; subst name
    end.
    list_member.
  - destruct Hin as [[= -> _]|[]]. destruct (Hsel Ht) as [Hl Hr]. auto.
Qed.

(** ** What the programs may raise *)

Lemma raises_only_mono {A} (P Q : exn -> Prop) (c : M A) :
  (forall e, P e -> Q e) -> raises_only P c -> raises_only Q c.
Proof. intros HPQ Hc w e He. eauto. Qed.

Lemma raises_only_ret {A} (P : exn -> Prop) (a : A) : raises_only P (ret a).
Proof. intros w e He. discriminate. Qed.

Lemma raises_only_st (P : exn -> Prop) (el : Element) : raises_only P (st el).
Proof. intros w e He. discriminate. Qed.

Lemma raises_only_bind_post {A B} (P : exn -> Prop) (Q : A -> Prop) (c : M A) (k : A -> M B) :
  raises_only P c ->
  (forall w a, fst (c w) = Ret a -> Q a) ->
  (forall a, Q a -> raises_only P (k a)) ->
  raises_only P (bind c k).
Proof.
  intros Hc Hq Hk w e. unfold bind. specialize (Hc w). specialize (Hq w).
  destruct (c w) as [[a|e'] w']; cbn in *.
  - apply (Hk a); eauto.
  - intros [= <-]. eauto.
Qed.

Lemma raises_only_bind {A B} (P : exn -> Prop) (c : M A) (k : A -> M B) :
  raises_only P c -> (forall a, raises_only P (k a)) -> raises_only P (bind c k).
Proof.
  intros Hc Hk. apply (raises_only_bind_post P (fun _ => True)); auto.
Qed.

Lemma raises_only_for_each {A} (P : exn -> Prop) (xs : list A) (body : A -> M unit) :
  (forall x, raises_only P (body x)) -> raises_only P (for_each xs body).
Proof.
  intros Hb. induction xs as [|x xs IH]; cbn.
  - apply raises_only_ret.
  - apply raises_only_bind; auto.
Qed.

Lemma raises_only_call (q : Request) : raises_only api_error (call q).
Proof.
  intros w e He. destruct (call_run q w) as (a & r' & Hc & Hf).
  rewrite Hc in He. cbn in He. destruct (Hf e He) as (_ & status & data & ->).
  unfold api_error. eauto.
Qed.

Lemma raises_only_try_except_github {A} (P : exn -> Prop) (c : M A) (h : exn -> M A) :
  raises_only api_error c -> (forall e, raises_only P (h e)) ->
  raises_only P (try_except_github c h).
Proof.
  intros Hc Hh w e. unfold try_except_github. specialize (Hc w).
  destruct (c w) as [[a|e'] w']; cbn in *; [discriminate|].
  destruct (Hc e' eq_refl) as (status & data & ->). apply Hh.
Qed.

Ltac raises_auto :=
  repeat first
    [ apply raises_only_ret
    | apply raises_only_st
    | apply raises_only_call
    | apply raises_only_bind; [|intros ?]
    | apply raises_only_for_each; intros ? ].

Lemma raises_only_all_repos (m : Manager) : raises_only api_error (all_repos m).
Proof. unfold all_repos, call_repos. raises_auto. Qed.

Lemma raises_only_get_repo_commits (m : Manager) (repo : Repo.t) :
  raises_only api_error (get_repo_commits m repo).
Proof. unfold get_repo_commits, call_commits. raises_auto. Qed.

Lemma raises_only_get_repos_dataframe (m : Manager) :
  raises_only api_error (get_repos_dataframe m).
Proof. unfold get_repos_dataframe, all_repos, call_repos. raises_auto. Qed.

Lemma raises_only_get_starred_repos (m : Manager) :
  raises_only api_error (get_starred_repos m).
Proof. unfold get_starred_repos, call_repos. raises_auto. Qed.

Lemma raises_only_get_recent_repos (m : Manager) (n : nat) :
  raises_only api_error (get_recent_repos m n).
Proof. unfold get_recent_repos, all_repos, call_repos. raises_auto. Qed.

Lemma raises_only_get_repo_stats (m : Manager) : raises_only api_error (get_repo_stats m).
Proof. unfold get_repo_stats, all_repos, call_repos. raises_auto. Qed.

Lemma raises_only_create_repo (m : Manager) (name : string) (description : option string)
    (private auto_init : bool) (gitignore_template license_template : option string) :
  raises_only api_error
    (create_repo m name description private auto_init gitignore_template license_template).
Proof. unfold create_repo, call_repo. raises_auto. Qed.

Lemma raises_only_delete_repo (m : Manager) (name : string) :
  raises_only api_error (delete_repo m name).
Proof. unfold delete_repo. raises_auto. Qed.

Section Raises.

Context (strftime : string -> Z -> string).

Lemma raises_only_export_to_csv (P : exn -> Prop) (data : DataFrame) (filename : string) :
  raises_only P (app.export_to_csv strftime data filename).
Proof. intros w e He. discriminate. Qed.

Lemma raises_only_collect_commits (m : Manager) (repos : list Repo.t)
    (all_commits : list CommitRow) :
  raises_only api_error (app.collect_commits m repos all_commits).
Proof.
  revert all_commits. induction repos as [|repo repos IH]; intros all_commits; cbn.
  - apply raises_only_ret.
  - apply raises_only_bind; [apply raises_only_get_repo_commits|]. intros commits. apply IH.
Qed.

Lemma raises_only_list_recent (m : Manager) (ui : Widgets) (i : nat) (repos : list Repo.t)
    (all_commits : list CommitRow) :
  raises_only api_error (app.list_recent strftime m ui i repos all_commits).
Proof.
  revert i all_commits. induction repos as [|repo repos IH]; intros i all_commits; cbn.
  - apply raises_only_ret.
  - apply raises_only_bind; [apply raises_only_st|]. intros _.
    apply raises_only_bind; [apply raises_only_get_repo_commits|]. intros commits.
    destruct commits as [|commit commits].
    + apply raises_only_bind; [apply raises_only_st|]. intros _. apply IH.
    + destruct (show_all_commits ui); [apply IH|].
      apply raises_only_bind; [|intros _; apply IH].
      apply raises_only_for_each. intros c. apply raises_only_st.
Qed.

Lemma get_repo_stats_returns (m : Manager) (w : World) (stats : dict nat) :
  fst (get_repo_stats m w) = Ret stats ->
  exists repos, stats = repo_stats (User.login (user m)) repos.
Proof.
  destruct (get_repo_stats_cases m w) as [[_ ->]|(status & data & _ & ->)]; cbn.
  - intros [= <-]. eauto.
  - discriminate.
Qed.

Lemma raises_only_stats_page (m : Manager) : raises_only api_error (app.stats_page m).
Proof.
  unfold app.stats_page.
  apply raises_only_bind; [apply raises_only_st|]. intros _.
  apply (raises_only_bind_post _
           (fun stats => exists repos, stats = repo_stats (User.login (user m)) repos));
    [apply raises_only_get_repo_stats|apply get_repo_stats_returns|].
  intros stats (repos & ->).
  pose proof (fun w => getitem_repo_stats (User.login (user m)) repos w) as Hg.
  apply raises_only_bind.
  { intros w e. unfold app.create_summary, bind.
    destruct (Hg w) as (-> & -> & -> & -> & -> & ->). discriminate. }
  intros summary.
  apply raises_only_bind; [apply raises_only_st|]. intros _.
  apply raises_only_bind.
  { intros w e. unfold app.metrics, bind.
    destruct (Hg w) as (-> & -> & -> & -> & -> & ->). discriminate. }
  intros ms. intros w e. rewrite show_metrics_run. discriminate.
Qed.

Lemma raises_only_filter_commits (P : exn -> Prop) (m : Manager)
    (df_commits : list (nat * CommitRow)) :
  raises_only P (app.filter_commits m df_commits).
Proof.
  unfold app.filter_commits. raises_auto.
  destruct (Nat.eqb _ 0); raises_auto.
Qed.

Lemma raises_only_activity_page (m : Manager) (ui : Widgets) :
  raises_only dashboard_error (app.activity_page strftime m ui).
Proof.
  assert (Hapi : forall A (c : M A), raises_only api_error c -> raises_only dashboard_error c).
  { intros A c. apply raises_only_mono. intros e He. now left. }
  unfold app.activity_page.
  apply raises_only_bind; [apply raises_only_st|]. intros _.
  apply raises_only_bind; [apply raises_only_st|]. intros _.
  apply raises_only_bind; [apply Hapi, raises_only_get_recent_repos|]. intros recent_repos.
  apply raises_only_bind; [apply Hapi, raises_only_list_recent|]. intros all_commits.
  apply raises_only_bind; [|intros _].
  { destruct (show_all_commits ui && _).
    - apply raises_only_bind; [apply raises_only_st|]. intros _.
      apply raises_only_bind; [|intros df; apply raises_only_st].
      destruct (filter_user_commits ui);
        [apply raises_only_filter_commits|apply raises_only_ret].
    - destruct (show_all_commits ui); [apply raises_only_st|apply raises_only_ret]. }
  apply raises_only_bind; [apply raises_only_st|]. intros _.
  apply raises_only_bind; [|intros _].
  { destruct (prepare_export ui); [|apply raises_only_ret].
    apply raises_only_bind.
    - apply Hapi. unfold app.get_all_commits.
      apply raises_only_bind; [apply raises_only_collect_commits|].
      intros rows. apply raises_only_ret.
    - intros df. apply raises_only_bind; [apply raises_only_st|]. intros _.
      apply raises_only_export_to_csv. }
  destruct (map _ recent_repos); [|apply raises_only_st].
  intros w e [= <-]. right. eauto.
Qed.

Lemma raises_only_pages (m : Manager) (ui : Widgets) :
  raises_only
    (fun e => api_error e \/ (selected ui = "Activity 🕒" /\ exists message, e = ValueError message))
    (if String.eqb (selected ui) "Stats 📊" then app.stats_page m
     else if String.eqb (selected ui) "Activity 🕒" then app.activity_page strftime m ui
     else if String.eqb (selected ui) "Data 📁" then app.data_page strftime m ui
     else if String.eqb (selected ui) "Visualize 📈" then app.visualize_page m
     else if String.eqb (selected ui) "Stars ⭐" then app.stars_page strftime m
     else if String.eqb (selected ui) "Create 🆕" then app.create_repository m ui
     else if String.eqb (selected ui) "Delete 🗑️" then app.delete_repository m ui
     else ret tt).
Proof.
  assert (Hapi : forall A (c : M A), raises_only api_error c -> raises_only
            (fun e => api_error e \/ (selected ui = "Activity 🕒" /\ exists message, e = ValueError message)) c).
  { intros A c. apply raises_only_mono. intros e He. now left. }
  destruct (String.eqb (selected ui) "Stats 📊"); [apply Hapi, raises_only_stats_page|].
  destruct (String.eqb_spec (selected ui) "Activity 🕒") as [Hs|_].
  { eapply raises_only_mono; [|apply raises_only_activity_page].
    intros e [He|He]; [now left|right; auto]. }
  destruct (String.eqb (selected ui) "Data 📁").
  { apply Hapi. unfold app.data_page.
    apply raises_only_bind; [apply raises_only_st|]. intros _.
    apply raises_only_bind; [apply raises_only_get_repos_dataframe|]. intros df.
    apply raises_only_bind; [destruct (format_owned ui); raises_auto|]. intros _.
    apply raises_only_bind; [apply raises_only_st|]. intros _.
    apply raises_only_export_to_csv. }
  destruct (String.eqb (selected ui) "Visualize 📈").
  { apply Hapi. unfold app.visualize_page.
    apply raises_only_bind; [apply raises_only_st|]. intros _.
    apply raises_only_bind; [apply raises_only_st|]. intros _.
    apply raises_only_bind; [apply raises_only_get_repos_dataframe|]. intros df.
    raises_auto. }
  destruct (String.eqb (selected ui) "Stars ⭐").
  { apply Hapi. unfold app.stars_page.
    apply raises_only_bind; [apply raises_only_st|]. intros _.
    apply raises_only_bind; [apply raises_only_st|]. intros _.
    apply raises_only_bind; [apply raises_only_get_starred_repos|]. intros df.
    repeat (apply raises_only_bind; [apply raises_only_st|]; intros _).
    apply raises_only_export_to_csv. }
  destruct (String.eqb (selected ui) "Create 🆕").
  { apply Hapi. unfold app.create_repository.
    apply raises_only_bind; [apply raises_only_st|]. intros _.
    apply raises_only_bind; [apply raises_only_st|]. intros _.
    destruct (submitted ui); [|apply raises_only_ret].
    apply raises_only_try_except_github; [|intros e; apply raises_only_st].
    apply raises_only_bind; [apply raises_only_create_repo|]. intros r.
    apply raises_only_st. }
  destruct (String.eqb (selected ui) "Delete 🗑️"); [|apply raises_only_ret].
  apply Hapi. unfold app.delete_repository.
  apply raises_only_bind; [apply raises_only_st|]. intros _.
  apply raises_only_bind; [apply raises_only_all_repos|]. intros repos.
  destruct (truthy _); [|apply raises_only_ret].
  apply raises_only_bind; [apply raises_only_st|]. intros _.
  apply raises_only_bind; [apply raises_only_st|]. intros _.
  destruct (delete_button ui); [|apply raises_only_ret].
  destruct (String.eqb _ _); [|apply raises_only_st].
  apply raises_only_try_except_github; [|intros e; apply raises_only_st].
  apply raises_only_bind; [apply raises_only_delete_repo|]. intros _.
  apply raises_only_st.
Qed.

(** X11. A run of the dashboard raises nothing but an API error of a
    page's call, or the [ValueError] of the activity chart on the Activity
    page.  In particular it never raises the [AttributeError] of reaching
    for the account of a manager that was not built, since initialisation
    gives the manager or a non-empty error text; nor a [KeyError] for a
    key of the statistics; nor does it exit. *)
Theorem dashboard_raises_only_page_errors (ui : Widgets) (w : World) (e : exn) :
  fst (app.main strftime ui w) = Raise e ->
  (exists status data, e = GithubException status data)
  \/ (selected ui = "Activity 🕒" /\ exists message, e = ValueError message).
Proof.
  name_run (app.main strftime ui w) E.
  unfold app.main in E. rewrite bind_st in E. unfold bind at 1 in E.
  match type of E with
  | context [app.initialize_repo_manager ?w0] =>
      destruct (initialize_repo_manager_cases w0)
        as (environ' & [Hi|[(token & Hi)|(s & d & Hi)]]); rewrite Hi in E
  end.
  - subst. cbn. discriminate.
  - cbn [truthy] in E. rewrite !bind_st in E. unfold bind at 1 in E.
    match type of E with
    | context [app.stats_page ?m] => pose proof (raises_only_pages m ui) as Hp
    end.
    match type of E with
    | context [(if String.eqb (selected ui) ?s then ?p else ?q) ?w0] =>
        specialize (Hp w0);
        destruct ((if String.eqb (selected ui) s then p else q) w0) as [[[]|e'] w']
    end.
    + subst. cbn. discriminate.
    + subst. cbn. intros [= <-]. apply (Hp e' eq_refl).
  - subst. cbn. discriminate.
Qed.

End Raises.

Lemma dashboard_raises_only_page_errors_on_fixture :
  let w := Fixture.world_rate_limited in
  let e := GithubException 403 "API rate limit exceeded" in
  fst (app.main Fixture.strftime (Fixture.widgets "Stats 📊") w) = Raise e
  /\ ((exists status data, e = GithubException status data)
      \/ (selected (Fixture.widgets "Stats 📊") = "Activity 🕒"
          /\ exists message, e = ValueError message)).
Proof.
  intros w e.
  assert (H : fst (app.main Fixture.strftime (Fixture.widgets "Stats 📊") w) = Raise e)
    by (vm_compute; reflexivity).
  split; [exact H|].
  exact (dashboard_raises_only_page_errors Fixture.strftime (Fixture.widgets "Stats 📊") w e H).
Defined.

(** ** Fetching commits *)

Lemma answers_S (n : nat) (w : World) :
  answers (S n) w ->
  hd None (faults w) = None
  /\ forall q outcome r', answers n (answered q outcome r' w).
Proof.
  unfold answers. intros H. destruct (faults w) as [|f fs] eqn:Hf.
  - split; [reflexivity|]. intros q outcome r'. cbn. rewrite Hf. cbn.
    rewrite take_nil. constructor.
  - cbn in H. inversion H as [|? ? Hh Ht]; subst. split; [reflexivity|].
    intros q outcome r'. cbn. rewrite Hf. exact Ht.
Qed.


Lemma answers_faults (n : nat) (w w' : World) :
  faults w' = faults w -> answers n w -> answers n w'.
Proof. unfold answers. now intros ->. Qed.

Lemma get_repo_commits_served (repo_manager : Manager) (repo : Repo.t) (w : World) :
  hd None (faults w) = None ->
  get_repo_commits repo_manager repo w
  = (Ret (commits_of (remote w) repo),
     answered (ListCommits (full_name repo)) None (remote w) w).
Proof.
  intros H. unfold get_repo_commits, call_commits, bind.
  now rewrite (call_served _ _ H).
Qed.

Lemma collect_commits_run (repo_manager : Manager) (repos : list Repo.t)
    (all_commits : list CommitRow) (w : World) :
  answers (length repos) w ->
  exists w',
    app.collect_commits repo_manager repos all_commits w
    = (Ret (all_commits ++ commit_rows (remote w) repos)%list, w')
    /\ remote w' = remote w
    /\ requests w' = (requests w ++ fetches repos)%list
    /\ faults w' = drop (length repos) (faults w)
    /\ clock w' = clock w
    /\ page w' = page w.
Proof.
  revert all_commits w. induction repos as [|repo repos IH]; intros all_commits w Ha.
  - exists w. cbn. rewrite !app_nil_r. repeat split; try reflexivity.
  - cbn [length] in Ha. apply answers_S in Ha. destruct Ha as [Hh Ha].
    cbn [app.collect_commits]. unfold bind at 1.
    rewrite (get_repo_commits_served _ _ _ Hh).
    set (w1 := answered (ListCommits (full_name repo)) None (remote w) w).
    destruct (IH (all_commits ++ map (commit_row repo) (commits_of (remote w) repo))%list
                w1 (Ha _ _ _)) as (w' & -> & Hr & Hq & Hf & Hc & Hp).
    exists w'. subst w1. split.
    { unfold commit_rows. cbn [flat_map].
      change (remote (answered _ _ (remote w) w)) with (remote w).
      now rewrite app_assoc. }
    rewrite Hr, Hq, Hf, Hc, Hp. cbn. rewrite <- app_assoc.
    repeat split; try reflexivity.
    destruct (faults w); [cbn; rewrite ?drop_nil; reflexivity|reflexivity].
Qed.

(** X12. When the platform answers, [get_all_commits] asks once for the
    commits of each repository, in the order given, and returns the table
    whose rows are the commits of the first repository, then of the
    second, and so on, each row carrying the name of its repository, under
    the labels 0, 1, 2, ...; the platform is left as it was.  For no
    repository it makes no call and returns the empty table. *)
Theorem get_all_commits_concatenates (repo_manager : Manager) (repos : list Repo.t)
    (w : World) :
  answers (length repos) w ->
  let rows := flat_map (fun repo => map (commit_row repo) (commits_of (remote w) repo)) repos in
  let w' := snd (app.get_all_commits repo_manager repos w) in
  fst (app.get_all_commits repo_manager repos w)
  = Ret (CommitFrame (combine (seq 0 (length rows)) rows))
  /\ requests w'
     = (requests w ++ map (fun repo => (ListCommits (full_name repo), None)) repos)%list
  /\ remote w' = remote w
  /\ Forall (fun row => exists repo, repo ∈ repos /\ c_repo row = Repo.name repo) rows.
Proof.
  intros Ha rows w'. subst w'. unfold app.get_all_commits, bind.
  destruct (collect_commits_run repo_manager repos [] w Ha)
    as (w' & -> & Hr & Hq & _). cbn [fst snd].
  split; [reflexivity|]. split; [exact Hq|]. split; [exact Hr|].
  subst rows. rewrite Forall_forall. intros row Hin.
  apply list_elem_of_In, in_flat_map in Hin. destruct Hin as (repo & Hrepo & Hrow).
  apply in_map_iff in Hrow. destruct Hrow as (commit & <- & _).
  exists repo. split; [now apply list_elem_of_In|reflexivity].
Qed.

Lemma get_all_commits_concatenates_on_fixture :
  answers 2 Fixture.world
  /\ fst (app.get_all_commits Fixture.manager [Fixture.demo; Fixture.lib] Fixture.world)
     = Ret (CommitFrame
              [ (0, commit_row Fixture.demo Fixture.init);
                (1, commit_row Fixture.demo Fixture.fix_typo);
                (2, commit_row Fixture.lib Fixture.bump) ]).
Proof.
  assert (Ha : answers 2 Fixture.world) by constructor.
  split; [exact Ha|].
  exact (proj1 (get_all_commits_concatenates Fixture.manager [Fixture.demo; Fixture.lib]
                  Fixture.world Ha)).
Defined.







Section Activity.

Context (strftime : string -> Z -> string).




End Activity.


(** ** The Data page *)

Lemma select_range_index_length {A} (mask : A -> bool) (rows : list A) (start : nat) :
  length (select mask (combine (seq start (length rows)) rows))
  = length (List.filter mask rows).
Proof.
  unfold select. revert start.
  induction rows as [|row rows IH]; intros start; [reflexivity|].
  cbn [length seq combine List.filter snd].
  destruct (mask row); cbn [length]; now rewrite IH.
Qed.

Section Data.

Context (strftime : string -> Z -> string).

(** X14. On the Data page, the two counts shown above the table add up
    to the number of its rows: the first is the number of listed
    repositories whose owner is the account, the second the number of the
    others.  The table offered for download is the table shown, and the
    file is named after the day of the run and the account. *)
Theorem data_page_counts_add_up (repo_manager : Manager) (ui : Widgets) (w : World) :
  hd None (faults w) = None ->
  format_owned ui = true ->
  let login := User.login (user repo_manager) in
  let repos := r_repos (remote w) in
  let owned := length (List.filter (fun repo => bool_decide (Repo.owner repo = login)) repos) in
  let others :=
    length (List.filter (fun repo => negb (bool_decide (Repo.owner repo = login))) repos) in
  let w' := snd (app.data_page strftime repo_manager ui w) in
  exists df,
    len df = length repos
    /\ owned + others = length repos
    /\ page w'
       = (page w ++
          [ st_header "Repository Data 📁";
            st_markdown ("You own <span style='color:red;font-weight:bold;'>"
                         +:+ pretty owned
                         +:+ "</span> repositories and have access to <span style='color:red;font-weight:bold;'>"
                         +:+ pretty others +:+ "</span> repositories owned by others.");
            st_styled df true;
            st_download_button "Download CSV" (Csv df)
              (strftime "%Y-%m-%d" (clock w) +:+ "_" +:+ login +:+ "_repository_data.csv")
              "text/csv" ])%list.
Proof.
  intros Hh Hfmt login repos owned others w'. subst w'.
  assert (Hsum : owned + others = length repos).
  { subst owned others. clear. induction repos as [|repo repos IH]; [reflexivity|].
    cbn. destruct (bool_decide (Repo.owner repo = login)); cbn; lia. }
  name_run (app.data_page strftime repo_manager ui w) E.
  unfold app.data_page in E. rewrite bind_st in E. unfold bind at 1 in E.
  match type of E with
  | context [get_repos_dataframe _ ?w0] =>
      destruct (get_repos_dataframe_cases repo_manager w0)
        as [[_ Hc]|(status & data & Hf & _)]; [rewrite Hc in E|cbn in Hf; congruence]
  end.
  rewrite Hfmt in E. rewrite !bind_st in E. subst run.
  eexists. split; [|split; [exact Hsum|]].
  2:{ cbn. rewrite <- !app_assoc. cbn [app]. unfold range_index.
      rewrite select_range_index_length.
      rewrite length_combine, length_seq, !length_map, Nat.min_id.
      assert (Ho : length (List.filter col_is_owner (map (repo_row login) repos)) = owned).
      { subst owned. clear. induction repos as [|repo repos IH]; [reflexivity|].
        cbn. unfold is_owner at 1. destruct (bool_decide (Repo.owner repo = login)); cbn;
          now rewrite IH. }
      fold login repos. rewrite Ho.
      replace (length repos - owned) with others by lia. reflexivity. }
  cbn. unfold range_index. now rewrite length_combine, length_seq, !length_map, Nat.min_id.
Qed.

End Data.

Lemma data_page_counts_add_up_on_fixture :
  let ui := Fixture.widgets "Data 📁" in
  hd None (faults Fixture.world) = None
  /\ format_owned ui = true
  /\ length (r_repos (remote Fixture.world)) = 3
  /\ nth_error (page (snd (app.data_page Fixture.strftime Fixture.manager ui Fixture.world))) 1
     = Some (st_markdown ("You own <span style='color:red;font-weight:bold;'>2"
                          +:+ "</span> repositories and have access to <span style='color:red;font-weight:bold;'>1"
                          +:+ "</span> repositories owned by others.")).
Proof.
  intros ui.
  destruct (data_page_counts_add_up Fixture.strftime Fixture.manager ui Fixture.world
              eq_refl eq_refl) as (df & _ & _ & Hp).
  split; [reflexivity|]. split; [reflexivity|]. split; [reflexivity|].
  rewrite Hp. reflexivity.
Defined.
